(** * The SQL projection guard of the stock-news agent

    A shallow embedding of the two tool files that guard the SQL sent to the
    news database:

      - [src/mastra/tools/sql-generation-tool.ts] (module [GenerationTool]):
        [containsForbiddenColumns] and [sanitizeSQL], applied to the query
        drafted by the language model;
      - the execution tool, imported by the agent as
        [../tools/sql-execution-tool] (module [ExecutionTool]): its own
        copies of [containsForbiddenColumns] and [sanitizeSQL], and
        [execute], the gate in front of the database connection.

    JavaScript strings are modelled as lists of code units below 256
    (the Latin-1 range), one [ascii] per code unit.  On that range
    [toLowerCase], [trim], [\s], [\w], [\b] and the case folding of the
    [i] flag are modelled exactly; the regular expressions of the source are
    run by a backtracking matcher that follows the priority order of the
    ECMAScript one (greedy: longest first, lazy: shortest first, leftmost
    start first). *)

From Stdlib Require Import List Ascii String Bool Arith Lia.
Import ListNotations.

Open Scope string_scope.
Open Scope list_scope.
Open Scope nat_scope.

(** ** JavaScript strings and the string methods the tools call *)

Module Js.

Definition jsstring := list ascii.

(** String literals stand for their list of code units. *)
Coercion list_ascii_of_string : string >-> list.

Definition code (c : ascii) : nat := nat_of_ascii c.

Definition between (lo hi n : nat) : bool := (lo <=? n) && (n <=? hi).

(** WhiteSpace and LineTerminator code units below 256: TAB, LF, VT, FF, CR,
    SPACE and NO-BREAK SPACE.  This is the set of [\s] and of [trim]. *)
Definition isWhiteSpace (c : ascii) : bool :=
  between 9 13 (code c) || (code c =? 32) || (code c =? 160).

(** [\w] is [A-Za-z0-9_]; the [i] flag alone does not extend it. *)
Definition isWordChar (c : ascii) : bool :=
  between 65 90 (code c) || between 97 122 (code c)
  || between 48 57 (code c) || (code c =? 95).

(** [toLowerCase] on one code unit: A-Z and the Latin-1 capitals
    (U+00C0..U+00DE without the multiplication sign U+00D7). *)
Definition lowerChar (c : ascii) : ascii :=
  if between 65 90 (code c) || (between 192 222 (code c) && negb (code c =? 215))
  then ascii_of_nat (code c + 32) else c.

(** Canonicalize of the [i] flag (no [u] flag): the upper case of the code
    unit when that is a single code unit and does not move a non-ASCII unit
    into ASCII.  U+00B5, U+00DF and U+00FF have no upper case below 256 other
    than themselves as far as comparisons inside this range go. *)
Definition canonicalize (c : ascii) : ascii :=
  if between 97 122 (code c) || (between 224 254 (code c) && negb (code c =? 247))
  then ascii_of_nat (code c - 32) else c.

Definition toLowerCase (s : jsstring) : jsstring := map lowerChar s.

Fixpoint trimStart (s : jsstring) : jsstring :=
  match s with
  | c :: t => if isWhiteSpace c then trimStart t else s
  | [] => []
  end.

Definition trimEnd (s : jsstring) : jsstring := rev (trimStart (rev s)).

Definition trim (s : jsstring) : jsstring := trimEnd (trimStart s).

Definition str_eqb (a b : jsstring) : bool :=
  if list_eq_dec ascii_dec a b then true else false.

Fixpoint isPrefix (p s : jsstring) : bool :=
  match p, s with
  | [], _ => true
  | c :: p', d :: s' => Ascii.eqb c d && isPrefix p' s'
  | _ :: _, [] => false
  end.

Definition startsWith (s p : jsstring) : bool := isPrefix p s.

(** [String.prototype.includes] *)
Fixpoint includes (s p : jsstring) : bool :=
  isPrefix p s || match s with _ :: t => includes t p | [] => false end.

(** [Array.prototype.includes] on an array of strings *)
Definition arrayIncludes (l : list jsstring) (x : jsstring) : bool :=
  existsb (str_eqb x) l.

(** [s.split(sep)] for a one-character separator *)
Fixpoint split (sep : ascii) (s : jsstring) : list jsstring :=
  match s with
  | [] => [[]]
  | c :: t =>
      if Ascii.eqb c sep then [] :: split sep t
      else match split sep t with
           | h :: r => (c :: h) :: r
           | [] => [[c]]
           end
  end.

Fixpoint join (sep : jsstring) (l : list jsstring) : jsstring :=
  match l with
  | [] => []
  | [x] => x
  | x :: r => x ++ sep ++ join sep r
  end.

End Js.

Import Js.

(** ** Regular expressions *)

Module Regex.

(** The fragment of the pattern language the source uses: character classes
    (a literal under the [i] flag is a class too), sequence, alternation,
    [+] and [+?] on a class, one capture group, [\b], [^] and [$]
    (no [m] flag). *)
Inductive regex : Type :=
| Eps
| Chr (p : ascii -> bool)
| Seq (a b : regex)
| Alt (a b : regex)
| Plus (p : ascii -> bool)
| PlusLazy (p : ascii -> bool)
| Group (a : regex)
| WordBoundary
| AssertStart
| AssertEnd.

(** A literal character under the [i] flag *)
Definition ci (x : ascii) : ascii -> bool :=
  fun c => Ascii.eqb (canonicalize c) (canonicalize x).

(** A literal word under the [i] flag *)
Fixpoint lit (w : jsstring) : regex :=
  match w with
  | [] => Eps
  | x :: w' => Seq (Chr (ci x)) (lit w')
  end.

(** [[^...]] under the [i] flag: no member has the canonical form of [c] *)
Definition noneOf (members : jsstring) : ascii -> bool :=
  fun c => negb (existsb (fun x => Ascii.eqb (canonicalize c) (canonicalize x)) members).

(** The matcher walks a zipper over the input: [before] holds the code units
    to the left of the position, nearest first. *)
Record mstate : Type := MState {
  before : jsstring;
  after : jsstring;
  capture : option jsstring
}.

(** The text between two positions of one walk *)
Definition consumed (st st' : mstate) : jsstring :=
  rev (firstn (List.length (before st') - List.length (before st)) (before st')).

(** End positions of [p*] from a position, longest first *)
Fixpoint star_greedy (p : ascii -> bool) (pre rest : jsstring)
  : list (jsstring * jsstring) :=
  match rest with
  | c :: r => if p c then star_greedy p (c :: pre) r ++ [(pre, rest)]
              else [(pre, rest)]
  | [] => [(pre, rest)]
  end.

(** End positions of [p*?] from a position, shortest first *)
Fixpoint star_lazy (p : ascii -> bool) (pre rest : jsstring)
  : list (jsstring * jsstring) :=
  (pre, rest) ::
  match rest with
  | c :: r => if p c then star_lazy p (c :: pre) r else []
  | [] => []
  end.

Definition plus_with (star : jsstring -> jsstring -> list (jsstring * jsstring))
    (p : ascii -> bool) (st : mstate) : list mstate :=
  match after st with
  | c :: r =>
      if p c
      then map (fun pr => MState (fst pr) (snd pr) (capture st)) (star (c :: before st) r)
      else []
  | [] => []
  end.

Definition head_is (p : ascii -> bool) (s : jsstring) : bool :=
  match s with
  | c :: _ => p c
  | [] => false
  end.

(** All the ways [r] matches at a position, in the order the backtracking
    matcher tries them: its first success is the head of the list. *)
Fixpoint run (r : regex) (st : mstate) : list mstate :=
  match r with
  | Eps => [st]
  | Chr p =>
      match after st with
      | c :: rest => if p c then [MState (c :: before st) rest (capture st)] else []
      | [] => []
      end
  | Seq a b => flat_map (run b) (run a st)
  | Alt a b => run a st ++ run b st
  | Plus p => plus_with (star_greedy p) p st
  | PlusLazy p => plus_with (star_lazy p) p st
  | Group a =>
      map (fun st' => MState (before st') (after st') (Some (consumed st st')))
          (run a st)
  | WordBoundary =>
      if xorb (head_is isWordChar (before st)) (head_is isWordChar (after st))
      then [st] else []
  | AssertStart => match before st with [] => [st] | _ :: _ => [] end
  | AssertEnd => match after st with [] => [st] | _ :: _ => [] end
  end.

(** What [exec] reports: the text before the match, the matched text, the
    capture group and the text after the match. *)
Record mresult : Type := MResult {
  prefix : jsstring;
  matched : jsstring;
  group : option jsstring;
  suffix : jsstring
}.

(** [m[1]] *)
Definition group1 (m : mresult) : jsstring :=
  match group m with
  | Some g => g
  | None => []
  end.

Definition result_at (pre : jsstring) (st' : mstate) : mresult :=
  MResult (rev pre)
          (consumed (MState pre [] None) st')
          (capture st')
          (after st').

(** Leftmost match at or after a position *)
Fixpoint exec_from (r : regex) (pre rest : jsstring) : option mresult :=
  match run r (MState pre rest None) with
  | st' :: _ => Some (result_at pre st')
  | [] =>
      match rest with
      | c :: rest' => exec_from r (c :: pre) rest'
      | [] => None
      end
  end.

(** [r.exec(s)], [s.match(r)] without the [g] flag *)
Definition exec (r : regex) (s : jsstring) : option mresult :=
  exec_from r [] s.

(** [r.test(s)] *)
Definition test (r : regex) (s : jsstring) : bool :=
  match exec r s with
  | Some _ => true
  | None => false
  end.

(** GetSubstitution for a pattern without capture groups: [$$], [$&],
    [$`] and [$'] are expanded; [$1]..[$99] and [$<] are copied as they
    stand, as there is no such group. *)
Fixpoint expand (template : jsstring) (m : mresult) : jsstring :=
  match template with
  | [] => []
  | c :: t =>
      if Ascii.eqb c "$"%char then
        match t with
        | d :: t' =>
            if Ascii.eqb d "$"%char then "$"%char :: expand t' m
            else if Ascii.eqb d "&"%char then matched m ++ expand t' m
            else if Ascii.eqb d "`"%char then prefix m ++ expand t' m
            else if Ascii.eqb d "'"%char then suffix m ++ expand t' m
            else c :: expand t m
        | [] => [c]
        end
      else c :: expand t m
  end.

(** [s.replace(r, template)] for [r] without the [g] flag and without
    capture groups *)
Definition replace (r : regex) (template : jsstring) (s : jsstring) : jsstring :=
  match exec r s with
  | None => s
  | Some m => prefix m ++ expand template m ++ suffix m
  end.

(** [s.replace(r, template)] for [r] with the [g] flag: every match from left
    to right, the search resuming at the end of the previous match (one unit
    further after an empty match).  [skip] counts the code units of the
    current match still to be dropped. *)
Fixpoint replace_all_from (r : regex) (template : jsstring)
    (pre rest : jsstring) (skip : nat) : jsstring :=
  match skip with
  | S k =>
      match rest with
      | c :: rest' => replace_all_from r template (c :: pre) rest' k
      | [] => []
      end
  | O =>
      match run r (MState pre rest None) with
      | st' :: _ =>
          let m := result_at pre st' in
          expand template m ++
          match rest with
          | c :: rest' =>
              match List.length (matched m) with
              | O => c :: replace_all_from r template (c :: pre) rest' 0
              | S k => replace_all_from r template (c :: pre) rest' k
              end
          | [] => []
          end
      | [] =>
          match rest with
          | c :: rest' => c :: replace_all_from r template (c :: pre) rest' 0
          | [] => []
          end
      end
  end.

Definition replace_all (r : regex) (template : jsstring) (s : jsstring) : jsstring :=
  replace_all_from r template [] s 0.

(** *** Notions used to state facts about the matcher *)

(** [st'] is reached from [st] by reading [l]. *)
Definition reads (st : mstate) (l : jsstring) (st' : mstate) : Prop :=
  before st' = rev l ++ before st /\ after st = l ++ after st'.

(** A capture group changes what is captured, not what is matched. *)
Fixpoint ungroup (r : regex) : regex :=
  match r with
  | Seq a b => Seq (ungroup a) (ungroup b)
  | Alt a b => Alt (ungroup a) (ungroup b)
  | Group a => ungroup a
  | _ => r
  end.

Definition same_pos (st1 st2 : mstate) : Prop :=
  before st1 = before st2 /\ after st1 = after st2.

Definition same_match (m m' : mresult) : Prop :=
  prefix m = prefix m' /\ matched m = matched m' /\ suffix m = suffix m'.

End Regex.

Import Regex.

(** ** The patterns of the two tool files *)

Module Patterns.

(** [[^from]] under the [i] flag *)
Definition notFrom : ascii -> bool := noneOf "from".

(** [[\w.]] *)
Definition wordOrDot (c : ascii) : bool := isWordChar c || Ascii.eqb c "."%char.

(** The class of the double quote (code 34) and the single quote (code 39) *)
Definition quote (c : ascii) : bool := (code c =? 34) || (code c =? 39).

(** [/select\s+([^from]+?)\s+from/i] *)
Definition selectRe : regex :=
  Seq (lit "select")
      (Seq (Plus isWhiteSpace)
           (Seq (Group (PlusLazy notFrom))
                (Seq (Plus isWhiteSpace) (lit "from")))).

(** [/select\s+[^from]+?\s+from/i], the pattern of the final [replace] *)
Definition selectSpanRe : regex :=
  Seq (lit "select")
      (Seq (Plus isWhiteSpace)
           (Seq (PlusLazy notFrom)
                (Seq (Plus isWhiteSpace) (lit "from")))).

(** [/from\s+([\w.]+)/i] *)
Definition fromTableRe : regex :=
  Seq (lit "from") (Seq (Plus isWhiteSpace) (Group (Plus wordOrDot))).

(** [new RegExp(`\\b${col}\\b`, 'i')] *)
Definition wordRe (col : jsstring) : regex :=
  Seq WordBoundary (Seq (lit col) WordBoundary).

(** [/^[\w.]+\./] *)
Definition tablePrefixRe : regex :=
  Seq AssertStart (Seq (Plus wordOrDot) (Chr (Ascii.eqb "."%char))).

(** [/^[Q]|[Q]$/g], where [Q] stands for the two quote characters *)
Definition quotesRe : regex :=
  Alt (Seq AssertStart (Chr quote)) (Seq (Chr quote) AssertEnd).


End Patterns.

Import Patterns.

(** The detector's report *)
Record report : Type := Report {
  hasForbidden : bool;
  forbiddenColumns : list jsstring
}.

(** The part the two copies of the tools share word for word. *)
Module Guard.

Definition FORBIDDEN_COLUMNS : list jsstring :=
  [ "content" : jsstring; "body" : jsstring; "full_text" : jsstring;
    "html" : jsstring; "raw_content" : jsstring ].

(** The body of [if (selectMatch) { ... }]: the forbidden names found in the
    captured clause, in the order of [FORBIDDEN_COLUMNS]. *)
Definition scanSelectClause (sqlLower : jsstring) : list jsstring :=
  match exec selectRe sqlLower with
  | Some selectMatch =>
      let selectClause := group1 selectMatch in
      filter (fun col => test (wordRe col) selectClause) FORBIDDEN_COLUMNS
  | None => []
  end.

Definition mkReport (foundForbidden : list jsstring) : report :=
  Report (0 <? List.length foundForbidden) foundForbidden.

(** The callback of [columns.filter]: the column is kept unless its bare
    name is forbidden. *)
Definition keepColumn (col : jsstring) : bool :=
  let colLower := toLowerCase col in
  let colName :=
    trim (replace_all quotesRe "" (replace tablePrefixRe "" colLower)) in
  negb (arrayIncludes FORBIDDEN_COLUMNS colName).

(** [sanitizeSQL] with the fallback list as an argument: the two copies
    differ in [ALLOWED_COLUMNS] only. *)
Definition sanitizeWith (ALLOWED_COLUMNS : list jsstring) (sql : jsstring) : jsstring :=
  match exec selectRe sql with
  | None => sql
  | Some selectMatch =>
      let originalSelect := group1 selectMatch in
      let selectClause := originalSelect in
      let columns := map trim (split ","%char selectClause) in
      let sanitizedColumns := filter keepColumn columns in
      let sanitizedColumns :=
        match sanitizedColumns with
        | [] => ALLOWED_COLUMNS
        | _ :: _ => sanitizedColumns
        end in
      let sanitizedSelect := join ", " sanitizedColumns in
      replace selectSpanRe ("SELECT " ++ sanitizedSelect ++ " FROM") sql
  end.

(** *** Notions used to state facts about the rewriter *)

(** The columns the rewriter keeps, given the captured clause *)
Definition keptColumns (ALLOWED_COLUMNS : list jsstring) (clause : jsstring) : list jsstring :=
  match filter keepColumn (map trim (split ","%char clause)) with
  | [] => ALLOWED_COLUMNS
  | (_ :: _) as kept => kept
  end.



End Guard.

(** ** [src/mastra/tools/sql-generation-tool.ts] *)

Module GenerationTool.

Definition FORBIDDEN_COLUMNS : list jsstring := Guard.FORBIDDEN_COLUMNS.

Definition ALLOWED_COLUMNS : list jsstring :=
  [ "id" : jsstring; "title" : jsstring; "slug" : jsstring;
    "symbols" : jsstring; "url" : jsstring; "published_at" : jsstring ].

Definition containsForbiddenColumns (sql : jsstring) : report :=
  let sqlLower := toLowerCase sql in
  Guard.mkReport (Guard.scanSelectClause sqlLower).

Definition sanitizeSQL (sql : jsstring) : jsstring :=
  Guard.sanitizeWith ALLOWED_COLUMNS sql.

End GenerationTool.

(** ** The execution tool *)

Module ExecutionTool.

Definition FORBIDDEN_COLUMNS : list jsstring := Guard.FORBIDDEN_COLUMNS.

Definition NEWS_TABLE_NAME : jsstring := "news".

Definition ALLOWED_COLUMNS : list jsstring :=
  [ "id" : jsstring; "title" : jsstring; "slug" : jsstring;
    "symbol" : jsstring; "url" : jsstring; "published_at" : jsstring ].

Definition containsForbiddenColumns (sql : jsstring) : report :=
  let sqlLower := toLowerCase sql in
  let newsTableMatch := exec fromTableRe sqlLower in
  let isNewsTable :=
    match newsTableMatch with
    | Some m => includes (toLowerCase (group1 m)) NEWS_TABLE_NAME
    | None => false
    end in
  Guard.mkReport (if isNewsTable then Guard.scanSelectClause sqlLower else []).

Definition sanitizeSQL (sql : jsstring) : jsstring :=
  Guard.sanitizeWith ALLOWED_COLUMNS sql.

(** *** The database client and the effects of [execute]

    The driver is opaque: a client is what its three calls answer.  A call
    of [execute] is a trace of driver calls and either a returned value or a
    thrown one (the promise of the async function resolved or rejected).
    Console output is left out, and building the client from the connection
    string is taken not to throw.

    [queryAnswer] is what the [try] block of [executeQuery] comes to: a
    thrown value, or the value of [result.rows], which is an array of rows
    or, when the driver resolves with something that has no [rows] (as it
    does for a text of several statements), [undefined]: [None]. *)

(** A thrown value: an [Error] with its message, or anything else with its
    [String(...)] text. *)
Inductive thrown : Type :=
| JsError (message : jsstring)
| JsOther (text : jsstring).

(** [error instanceof Error ? error.message : String(error)] *)
Definition messageOf (error : thrown) : jsstring :=
  match error with
  | JsError message => message
  | JsOther text => text
  end.

Definition row : Type := list (jsstring * jsstring).

Record Client : Type := MkClient {
  connectAnswer : option thrown;
  queryAnswer : jsstring -> thrown + option (list row);
  endAnswer : option thrown
}.

Inductive event : Type :=
| Connect (dbUrl : jsstring)
| Query (sql : jsstring)
| End.

Definition io (A : Type) : Type := (list event * (thrown + A))%type.

Definition ret {A : Type} (a : A) : io A := ([], inr a).

Definition throw {A : Type} (e : thrown) : io A := ([], inl e).

Definition bind {A B : Type} (m : io A) (f : A -> io B) : io B :=
  match m with
  | (t, inl e) => (t, inl e)
  | (t, inr a) => let (t', r) := f a in (t ++ t', r)
  end.

(** [try { m } catch (error) { handler error }] *)
Definition tryCatch {A : Type} (m : io A) (handler : thrown -> io A) : io A :=
  match m with
  | (t, inl e) => let (t', r) := handler e in (t ++ t', r)
  | (t, inr a) => (t, inr a)
  end.

(** [try { m } finally { fin }]: the completion of [m] stands unless [fin]
    throws. *)
Definition tryFinally {A : Type} (m : io A) (fin : io unit) : io A :=
  let (t, r) := m in
  match fin with
  | (t', inl e) => (t ++ t', inl e)
  | (t', inr _) => (t ++ t', r)
  end.

Notation "x <- m ;; k" := (bind m (fun x => k))
  (at level 61, m at next level, right associativity).

Definition answer (a : option thrown) : thrown + unit :=
  match a with
  | Some e => inl e
  | None => inr tt
  end.

Definition clientConnect (client : Client) (dbUrl : jsstring) : io unit :=
  ([Connect dbUrl], answer (connectAnswer client)).

Definition clientQuery (client : Client) (sql : jsstring) : io (option (list row)) :=
  ([Query sql], queryAnswer client sql).

Definition clientEnd (client : Client) : io unit :=
  ([End], answer (endAnswer client)).

Definition executeQuery (client : Client) (query : jsstring)
  : io (option (list row)) :=
  tryCatch
    (rows <- clientQuery client query ;; ret rows)
    (fun error => throw (JsError ("Failed to execute query: " ++ messageOf error))).

(** The message of the TypeError that reading [length] of [undefined]
    throws, in the wording of V8 *)
Definition undefinedLengthMessage : jsstring :=
  "Cannot read properties of undefined (reading 'length')".

(** [result.length] *)
Definition lengthOf (result : option (list row)) : io nat :=
  match result with
  | Some rows => ret (List.length rows)
  | None => throw (JsError undefinedLengthMessage)
  end.

(** The object [execute] returns; the fields a branch leaves out are [None]. *)
Record result : Type := MkResult {
  success : bool;
  data : option (list row);
  rowCount : option nat;
  executedQuery : jsstring;
  warning : option jsstring;
  error : option jsstring
}.

(** [a || b] on optional strings: [undefined] and the empty string are
    falsy. *)
Definition truthy (o : option jsstring) : bool :=
  match o with
  | Some (_ :: _) => true
  | _ => false
  end.

Definition orElse (a b : option jsstring) : option jsstring :=
  if truthy a then a else b.

(** [execute], with the detector and the rewriter it calls as arguments.
    [env] is [process.env.NEWS_DATABASE_URL]; [client] is the client that
    [createDatabaseConnection(dbUrl)] builds. *)
Definition executeWith
    (containsForbiddenColumns : jsstring -> report)
    (sanitizeSQL : jsstring -> jsstring)
    (env : option jsstring) (client : Client)
    (connectionString : option jsstring) (query : jsstring) : io result :=
  match orElse connectionString env with
  | Some ((_ :: _) as dbUrl) =>
      tryFinally
        (tryCatch
           (_ <- clientConnect client dbUrl ;;
            let trimmedQuery := toLowerCase (trim query) in
            if negb (startsWith trimmedQuery "select") then
              throw (JsError "Only SELECT queries are allowed for security reasons")
            else
              let validation := containsForbiddenColumns query in
              if hasForbidden validation then
                let sanitizedQuery := sanitizeSQL query in
                result <- executeQuery client sanitizedQuery ;;
                rowCount <- lengthOf result ;;
                ret (MkResult true result (Some rowCount)
                       sanitizedQuery
                       (Some ("Forbidden columns ("
                              ++ join ", " (forbiddenColumns validation)
                              ++ ") were automatically removed from the query."))
                       None)
              else
                result <- executeQuery client query ;;
                rowCount <- lengthOf result ;;
                ret (MkResult true result (Some rowCount)
                       query None None))
           (fun error =>
              ret (MkResult false None None query None (Some (messageOf error)))))
        (clientEnd client)
  | _ =>
      throw (JsError "No connection string provided and NEWS_DATABASE_URL is not set in environment variables")
  end.

Definition execute : option jsstring -> Client -> option jsstring -> jsstring -> io result :=
  executeWith containsForbiddenColumns sanitizeSQL.

End ExecutionTool.

(** ** Notions and sample data for the statements *)

Import ExecutionTool.

(** The queries of the example scenarios *)
Definition scenario1 : jsstring :=
  "SELECT id, title, content FROM articles ORDER BY published_at DESC LIMIT 10".

Definition scenario2 : jsstring := "SELECT content, body FROM articles".

Definition scenario4 : jsstring := "UPDATE articles SET title = 'x'".


(** A text of two statements that begins with a SELECT *)
Definition scenarioTwoStatements : jsstring := "SELECT 1; DELETE FROM news".

(** A connection string and a client that answers every call *)
Definition sampleUrl : jsstring := "postgres://news".

Definition sampleClient : Client :=
  MkClient None (fun _ => inr (Some [[("id" : jsstring, "1" : jsstring)]])) None.

(** The message of the statement-type rejection *)
Definition selectOnlyMessage : jsstring :=
  "Only SELECT queries are allowed for security reasons".

(** The test [trimmedQuery.startsWith('select')] of [execute] *)
Definition isSelect (query : jsstring) : bool :=
  startsWith (toLowerCase (trim query)) "select".

(** ** The execution tool without the column guard

    The earlier text of the execution tool: the same connection handling
    and statement-type check, and no detector or rewriter. *)

Module ExecutionToolUnguarded.

Definition executeQuery (client : Client) (query : jsstring)
  : io (option (list row)) :=
  tryCatch
    (rows <- clientQuery client query ;; ret rows)
    (fun error => throw (JsError ("Failed to execute query: " ++ messageOf error))).

Definition execute
    (env : option jsstring) (client : Client)
    (connectionString : option jsstring) (query : jsstring) : io result :=
  match orElse connectionString env with
  | Some ((_ :: _) as dbUrl) =>
      tryFinally
        (tryCatch
           (_ <- clientConnect client dbUrl ;;
            let trimmedQuery := toLowerCase (trim query) in
            if negb (startsWith trimmedQuery "select") then
              throw (JsError "Only SELECT queries are allowed for security reasons")
            else
              result <- executeQuery client query ;;
              rowCount <- lengthOf result ;;
              ret (MkResult true result (Some rowCount)
                     query None None))
           (fun error =>
              ret (MkResult false None None query None (Some (messageOf error)))))
        (clientEnd client)
  | _ =>
      throw (JsError "No connection string provided and NEWS_DATABASE_URL is not set in environment variables")
  end.

End ExecutionToolUnguarded.

(** ** [execute] of [src/mastra/tools/sql-generation-tool.ts]

    The call of the language model is opaque: [generateObject] is what the
    awaited call answers for a model name, an object or a thrown value (the
    prompts it is given are not modelled; anything thrown while they are
    built is an answer of the second kind). *)

Module GenerationRun.

(** The object of [sqlGenerationSchema]; [confidence] is carried along and
    never computed with. *)
Record generated (number : Type) : Type := MkGenerated {
  sql : jsstring;
  explanation : jsstring;
  confidence : number;
  assumptions : list jsstring;
  tables_used : list jsstring
}.

Arguments MkGenerated {number}.
Arguments sql {number}.
Arguments explanation {number}.
Arguments confidence {number}.
Arguments assumptions {number}.
Arguments tables_used {number}.

(** [process.env.MODEL || 'gpt-4o'] *)
Definition modelString (MODEL : option jsstring) : jsstring :=
  match MODEL with
  | Some ((_ :: _) as m) => m
  | _ => "gpt-4o"
  end.

(** [modelString.includes('/') ? modelString.split('/')[1] : modelString] *)
Definition modelName (MODEL : option jsstring) : jsstring :=
  if includes (modelString MODEL) "/"
  then nth 1 (split "/"%char (modelString MODEL)) []
  else modelString MODEL.

Definition execute {number : Type} (MODEL : option jsstring)
    (generateObject : jsstring -> thrown + generated number)
  : thrown + generated number :=
  match generateObject (modelName MODEL) with
  | inr object =>
      let generatedSQL := sql object in
      let validation := GenerationTool.containsForbiddenColumns generatedSQL in
      if hasForbidden validation then
        let sanitizedSQL := GenerationTool.sanitizeSQL generatedSQL in
        inr (MkGenerated
               sanitizedSQL
               (explanation object ++ " [Note: Forbidden columns ("
                ++ join ", " (forbiddenColumns validation)
                ++ ") were automatically removed from the query.]")
               (confidence object)
               (assumptions object
                ++ [ "Forbidden columns ("
                     ++ join ", " (forbiddenColumns validation)
                     ++ ") were detected and removed from the SELECT clause." ])
               (tables_used object))
      else inr object
  | inl error =>
      inl (JsError ("Failed to generate SQL query: " ++ messageOf error))
  end.

End GenerationRun.

(** *** Notions used to state facts about the column filter *)

(** Nothing, or one quote character *)
Definition optionalQuote (q : jsstring) : bool :=
  match q with
  | [] => true
  | [c] => quote c
  | _ => false
  end.

(** A table or alias qualifier with its dot, or nothing *)
Definition qualifierDot (qualifier : jsstring) : jsstring :=
  match qualifier with
  | [] => []
  | _ :: _ => qualifier ++ "."
  end.

Definition noDollar (c : ascii) : bool := negb (Ascii.eqb c "$"%char).

Definition noSlash (c : ascii) : bool := negb (Ascii.eqb c "/"%char).

(** The message of the missing-configuration error *)
Definition noUrlMessage : jsstring :=
  "No connection string provided and NEWS_DATABASE_URL is not set in environment variables".

(** * The model on small inputs *)

Module ModelChecks.

Definition clauseOf (s : jsstring) : option jsstring :=
  option_map group1 (exec selectRe s).

Example capture_trims_outer_space :
  clauseOf "select  a , b   from t" = Some ("a , b" : jsstring).
Proof. reflexivity. Qed.

Example capture_of_blank_projection :
  clauseOf "select     from t" = Some (" " : jsstring).
Proof. reflexivity. Qed.

Example capture_backtracks_into_leading_space :
  clauseOf ("select  " ++ ascii_of_nat 10 :: " from x") = Some [ascii_of_nat 10].
Proof. reflexivity. Qed.

Example capture_stops_at_class_letter :
  clauseOf "select id, url from news" = None.
Proof. reflexivity. Qed.

Example table_of_from_clause :
  option_map group1 (exec fromTableRe "select x from  public.news where a")
  = Some ("public.news" : jsstring).
Proof. reflexivity. Qed.

Example word_test :
  test (wordRe "content") "a, content, b" = true
  /\ test (wordRe "content") "a, contents, b" = false
  /\ test (wordRe "content") "a.CONTENT" = true.
Proof. repeat split. Qed.

Example table_prefix_is_greedy :
  replace tablePrefixRe "" "a.b.c d.e" = ("c d.e" : jsstring).
Proof. reflexivity. Qed.

Example quotes_at_both_ends :
  replace_all quotesRe "" ("'a'b'" : jsstring) = ("a'b" : jsstring)
  /\ replace_all quotesRe "" ("'" : jsstring) = [].
Proof. split; reflexivity. Qed.

Example split_keeps_empty_pieces :
  split ","%char "a,,b," = [ "a" : jsstring; [] ; "b" : jsstring; [] ].
Proof. reflexivity. Qed.

Example filter_drops_qualified_quoted_name :
  Guard.keepColumn ("a." ++ ascii_of_nat 34 :: "Content" ++ [ascii_of_nat 34]) = false
  /\ Guard.keepColumn "a.id" = true.
Proof. split; reflexivity. Qed.

Example rewrite_respells_span :
  GenerationTool.sanitizeSQL "x select  a , b   from t WHERE y"
  = ("x SELECT a, b FROM t WHERE y" : jsstring).
Proof. reflexivity. Qed.

Example rewrite_substitutes_dollar_patterns :
  GenerationTool.sanitizeSQL "x select $& from t"
  = ("x SELECT select $& from FROM t" : jsstring).
Proof. reflexivity. Qed.

Example rewrite_of_blank_projection :
  GenerationTool.sanitizeSQL "select     from t" = ("SELECT  FROM t" : jsstring).
Proof. reflexivity. Qed.

Example gate_runs_a_select :
  execute None sampleClient (Some sampleUrl) "  Select id FROM news"
  = ([Connect sampleUrl; Query "  Select id FROM news"; End],
     inr (MkResult true (Some [[("id" : jsstring, "1" : jsstring)]]) (Some 1)
            "  Select id FROM news" None None)).
Proof. reflexivity. Qed.

Example gate_reports_driver_error :
  execute (Some sampleUrl)
    (MkClient None (fun _ => inl (JsError "relation does not exist")) None)
    None "SELECT id FROM nowhere"
  = ([Connect sampleUrl; Query "SELECT id FROM nowhere"; End],
     inr (MkResult false None None "SELECT id FROM nowhere" None
            (Some ("Failed to execute query: relation does not exist" : jsstring)))).
Proof. reflexivity. Qed.

Example gate_close_failure_propagates :
  snd (execute None (MkClient None (fun _ => inr (Some [])) (Some (JsError "socket")))
         (Some sampleUrl) "SELECT 1")
  = inl (JsError "socket").
Proof. reflexivity. Qed.

Example gate_sends_two_statements_whole :
  execute None (MkClient None (fun _ => inr None) None)
    (Some sampleUrl) scenarioTwoStatements
  = ([Connect sampleUrl; Query scenarioTwoStatements; End],
     inr (MkResult false None None scenarioTwoStatements None
            (Some undefinedLengthMessage))).
Proof. reflexivity. Qed.

End ModelChecks.

(** * Facts about the matcher *)

Module RegexFacts.

Lemma reads_refl st : reads st [] st.
Proof. split; reflexivity. Qed.

Lemma reads_trans st1 l1 st2 l2 st3 :
  reads st1 l1 st2 -> reads st2 l2 st3 -> reads st1 (l1 ++ l2) st3.
Proof.
  intros [Hb1 Ha1] [Hb2 Ha2]. split.
  - rewrite Hb2, Hb1, rev_app_distr, app_assoc. reflexivity.
  - rewrite Ha1, Ha2, app_assoc. reflexivity.
Qed.

Lemma consumed_before st l st' :
  before st' = rev l ++ before st -> consumed st st' = l.
Proof.
  intros Hb. unfold consumed. rewrite Hb, length_app, length_rev.
  replace (List.length l + List.length (before st) - List.length (before st))
    with (List.length (rev l) + 0) by (rewrite length_rev; lia).
  rewrite firstn_app_2. simpl. rewrite app_nil_r. apply rev_involutive.
Qed.

Lemma star_greedy_reads p pre rest pre' rest' :
  In (pre', rest') (star_greedy p pre rest) ->
  exists l, pre' = rev l ++ pre /\ rest = l ++ rest' /\ forallb p l = true.
Proof.
  revert pre. induction rest as [|c r IH]; intros pre H; simpl in H.
  - destruct H as [H|[]]. inversion H; subst. exists []. auto.
  - destruct (p c) eqn:Hp.
    + apply in_app_or in H. destruct H as [H|[H|[]]].
      * apply IH in H. destruct H as (l & -> & -> & Hl).
        exists (c :: l). simpl. rewrite <- app_assoc, Hp. auto.
      * inversion H; subst. exists []. auto.
    + destruct H as [H|[]]. inversion H; subst. exists []. auto.
Qed.

Lemma star_lazy_reads p pre rest pre' rest' :
  In (pre', rest') (star_lazy p pre rest) ->
  exists l, pre' = rev l ++ pre /\ rest = l ++ rest' /\ forallb p l = true.
Proof.
  revert pre. induction rest as [|c r IH]; intros pre H; simpl in H.
  - destruct H as [H|[]]. inversion H; subst. exists []. auto.
  - destruct H as [H|H].
    + inversion H; subst. exists []. auto.
    + destruct (p c) eqn:Hp; [|destruct H].
      apply IH in H. destruct H as (l & -> & -> & Hl).
      exists (c :: l). simpl. rewrite <- app_assoc, Hp. auto.
Qed.

Lemma plus_with_reads star p st st' :
  (forall pre rest pre' rest', In (pre', rest') (star pre rest) ->
     exists l, pre' = rev l ++ pre /\ rest = l ++ rest' /\ forallb p l = true) ->
  In st' (plus_with star p st) ->
  exists l, reads st l st' /\ forallb p l = true /\ l <> []
            /\ capture st' = capture st.
Proof.
  intros Hstar H. unfold plus_with in H.
  destruct (after st) as [|c r] eqn:Ha; [destruct H|].
  destruct (p c) eqn:Hp; [|destruct H].
  apply in_map_iff in H. destruct H as ([pre' rest'] & <- & H).
  apply Hstar in H. destruct H as (l & -> & -> & Hl).
  exists (c :: l). split; [split; simpl|split; [|split]].
  - rewrite <- app_assoc. reflexivity.
  - assumption.
  - simpl. rewrite Hp. assumption.
  - discriminate.
  - reflexivity.
Qed.

(** Every way a pattern matches reads a piece of the input. *)
Lemma run_reads r : forall st st', In st' (run r st) -> exists l, reads st l st'.
Proof.
  induction r; intros st st' H; simpl in H.
  - destruct H as [<-|[]]. exists []. apply reads_refl.
  - destruct (after st) as [|c rest] eqn:Ha; [destruct H|].
    destruct (p c); [|destruct H]. destruct H as [<-|[]].
    exists [c]. split; simpl; auto.
  - apply in_flat_map in H. destruct H as (st1 & H1 & H2).
    apply IHr1 in H1. apply IHr2 in H2. destruct H1 as [l1 H1], H2 as [l2 H2].
    exists (l1 ++ l2). eapply reads_trans; eauto.
  - apply in_app_or in H. destruct H as [H|H]; eauto.
  - eapply plus_with_reads in H; [|apply star_greedy_reads].
    destruct H as (l & H & _). eauto.
  - eapply plus_with_reads in H; [|apply star_lazy_reads].
    destruct H as (l & H & _). eauto.
  - apply in_map_iff in H. destruct H as (st1 & <- & H).
    apply IHr in H. destruct H as [l H]. exists l. exact H.
  - destruct (xorb _ _); [|destruct H]. destruct H as [<-|[]].
    exists []. apply reads_refl.
  - destruct (before st); [|destruct H]. destruct H as [<-|[]].
    exists []. apply reads_refl.
  - destruct (after st); [|destruct H]. destruct H as [<-|[]].
    exists []. apply reads_refl.
Qed.

(** A literal word reads its own letters, up to case. *)
Lemma run_lit w : forall st st',
  In st' (run (lit w) st) ->
  exists l, reads st l st' /\ Forall2 (fun c x => ci x c = true) l w
            /\ capture st' = capture st.
Proof.
  induction w as [|x w IH]; intros st st' H; simpl in H.
  - destruct H as [<-|[]]. exists []. split; [apply reads_refl|auto].
  - apply in_flat_map in H. destruct H as (st1 & H1 & H2).
    destruct (after st) as [|c rest] eqn:Ha; [destruct H1|].
    destruct (ci x c) eqn:Hc; [|destruct H1]. destruct H1 as [<-|[]].
    apply IH in H2. destruct H2 as (l & [Hb Ha'] & Hl & Hcap).
    simpl in *. exists (c :: l). split; [split; simpl|split].
    + rewrite Hb, <- app_assoc. reflexivity.
    + rewrite Ha, Ha'. reflexivity.
    + constructor; assumption.
    + assumption.
Qed.

(** What [exec] answers comes from one run of the pattern at some position
    of the input. *)
Lemma exec_from_some r : forall rest pre m,
  exec_from r pre rest = Some m ->
  exists pre' rest' st' others,
    rev pre' ++ rest' = rev pre ++ rest
    /\ run r (MState pre' rest' None) = st' :: others
    /\ m = result_at pre' st'.
Proof.
  induction rest as [|c rest IH]; intros pre m H; simpl in H.
  - destruct (run r (MState pre [] None)) as [|st' others] eqn:Hr; [discriminate|].
    inversion H; subst. exists pre, [], st', others. auto.
  - destruct (run r (MState pre (c :: rest) None)) as [|st' others] eqn:Hr.
    + apply IH in H. destruct H as (pre' & rest' & st' & others & He & Hr' & ->).
      exists pre', rest', st', others. repeat split; auto.
      rewrite He. simpl. rewrite <- app_assoc. reflexivity.
    + inversion H; subst. exists pre, (c :: rest), st', others. auto.
Qed.

Lemma exec_from_none r : forall rest pre,
  (forall pre' rest', rev pre' ++ rest' = rev pre ++ rest ->
     run r (MState pre' rest' None) = []) ->
  exec_from r pre rest = None.
Proof.
  induction rest as [|c rest IH]; intros pre H; simpl.
  - rewrite (H pre []); reflexivity.
  - rewrite (H pre (c :: rest)) by reflexivity.
    apply IH. intros pre' rest' He. apply H. rewrite He. simpl.
    rewrite <- app_assoc. reflexivity.
Qed.

(** The three parts of a match put the input together again, and the match
    is one way the pattern reads the matched text there. *)
Lemma exec_some r s m :
  exec r s = Some m ->
  s = prefix m ++ matched m ++ suffix m
  /\ exists st' others,
       run r (MState (rev (prefix m)) (matched m ++ suffix m) None) = st' :: others
       /\ reads (MState (rev (prefix m)) (matched m ++ suffix m) None) (matched m) st'
       /\ group m = capture st' /\ suffix m = after st'.
Proof.
  intros H. apply exec_from_some in H.
  destruct H as (pre' & rest' & st' & others & He & Hr & ->).
  assert (Hin : In st' (run r (MState pre' rest' None))) by (rewrite Hr; left; reflexivity).
  apply run_reads in Hin. destruct Hin as [l [Hb Ha]]. simpl in Hb, Ha, He.
  unfold result_at. simpl.
  rewrite (consumed_before (MState pre' [] None) l st') by exact Hb.
  rewrite rev_involutive, <- Ha. split; [symmetry; exact He|].
  exists st', others. repeat split; auto.
Qed.

Lemma exec_parts r s m :
  exec r s = Some m -> s = prefix m ++ matched m ++ suffix m.
Proof. intros H. apply exec_some in H. apply H. Qed.

(** A literal letter that occurs nowhere in the text, in either case, keeps
    every pattern built around the word from matching. *)
Lemma lit_needs_letter w x st st' :
  In x w -> In st' (run (lit w) st) ->
  exists c, In c (after st) /\ ci x c = true.
Proof.
  intros Hx H. apply run_lit in H. destruct H as (l & [_ Ha] & Hl & _).
  rewrite Ha. clear Ha. induction Hl as [|c y l w' Hc Hl IH].
  - destruct Hx.
  - destruct Hx as [->|Hx].
    + exists c. split; [left; reflexivity|assumption].
    + destruct (IH Hx) as (c' & Hin & Hc'). exists c'. split; [right|]; assumption.
Qed.

Lemma test_wordRe_false col x clause :
  In x col -> (forall c, In c clause -> ci x c = false) ->
  test (wordRe col) clause = false.
Proof.
  intros Hx Hno. unfold test, exec. rewrite exec_from_none; [reflexivity|].
  intros pre' rest' He. simpl in He.
  destruct (run (wordRe col) (MState pre' rest' None)) as [|st' others] eqn:Hr;
    [reflexivity|exfalso].
  assert (Hin : In st' (run (wordRe col) (MState pre' rest' None)))
    by (rewrite Hr; left; reflexivity).
  unfold wordRe in Hin. simpl in Hin.
  apply in_flat_map in Hin. destruct Hin as (st1 & H1 & H2).
  destruct (xorb _ _); [|destruct H1]. destruct H1 as [<-|[]].
  apply in_flat_map in H2. destruct H2 as (st2 & H2 & _).
  destruct (lit_needs_letter _ _ _ _ Hx H2) as (c & Hc & Hci). simpl in Hc.
  rewrite Hno in Hci; [discriminate|].
  rewrite <- He. apply in_or_app. right. exact Hc.
Qed.

Lemma Forall2_flat_map {A B} (R : A -> A -> Prop) (S : B -> B -> Prop)
    (f g : A -> list B) l1 l2 :
  Forall2 R l1 l2 ->
  (forall a b, R a b -> Forall2 S (f a) (g b)) ->
  Forall2 S (flat_map f l1) (flat_map g l2).
Proof.
  intros H Hfg. induction H; simpl; [constructor|].
  apply Forall2_app; auto.
Qed.

Lemma Forall2_map_both {A B} (S : B -> B -> Prop) (f g : A -> B) l :
  (forall a, S (f a) (g a)) -> Forall2 S (map f l) (map g l).
Proof. intros H. induction l; simpl; constructor; auto. Qed.

Lemma plus_with_same_pos star p st1 st2 :
  same_pos st1 st2 ->
  Forall2 same_pos (plus_with star p st1) (plus_with star p st2).
Proof.
  intros [Hb Ha]. unfold plus_with. rewrite Hb, Ha.
  destruct (after st2) as [|c r]; [constructor|].
  destruct (p c); [|constructor].
  apply Forall2_map_both. intros [pre rest]. split; reflexivity.
Qed.

Lemma run_ungroup r : forall st1 st2,
  same_pos st1 st2 -> Forall2 same_pos (run r st1) (run (ungroup r) st2).
Proof.
  induction r; intros st1 st2 Hs; simpl.
  - constructor; [assumption|constructor].
  - destruct Hs as [Hb Ha]. rewrite Hb, Ha. destruct (after st2) as [|c rest]; [constructor|].
    destruct (p c); constructor; [split; reflexivity|constructor].
  - eapply Forall2_flat_map; [apply IHr1; assumption|]. intros a b Hab. apply IHr2. assumption.
  - apply Forall2_app; auto.
  - apply plus_with_same_pos. assumption.
  - apply plus_with_same_pos. assumption.
  - specialize (IHr st1 st2 Hs). induction IHr; simpl; constructor; auto.
  - destruct Hs as [Hb Ha]. rewrite Hb, Ha. destruct (xorb _ _); constructor.
    + split; assumption.
    + constructor.
  - destruct Hs as [Hb Ha]. rewrite Hb. destruct (before st2) eqn:E; constructor.
    + split; congruence.
    + constructor.
  - destruct Hs as [Hb Ha]. rewrite Ha. destruct (after st2) eqn:E; constructor.
    + split; congruence.
    + constructor.
Qed.

Lemma exec_ungroup r s :
  match exec r s, exec (ungroup r) s with
  | Some m, Some m' => same_match m m'
  | None, None => True
  | _, _ => False
  end.
Proof.
  unfold exec. generalize (@nil ascii) as pre.
  induction s as [|c rest IH]; intros pre; simpl.
  - pose proof (run_ungroup r (MState pre [] None) (MState pre [] None)
                  (conj eq_refl eq_refl)) as H.
    destruct H as [|st1 st2 l1 l2 [Hb Ha] _]; [exact I|].
    unfold same_match, result_at, consumed. simpl. rewrite Hb, Ha. auto.
  - pose proof (run_ungroup r (MState pre (c :: rest) None) (MState pre (c :: rest) None)
                  (conj eq_refl eq_refl)) as H.
    destruct H as [|st1 st2 l1 l2 [Hb Ha] _]; [apply IH|].
    unfold same_match, result_at, consumed. simpl. rewrite Hb, Ha. auto.
Qed.

Lemma expand_same_match t m m' : same_match m m' -> expand t m = expand t m'.
Proof.
  intros (Hp & Hm & Hs).
  assert (Hlen : forall n t, List.length t <= n -> expand t m = expand t m').
  { induction n as [|n IH]; intros [|c u] Hl; simpl in *; try reflexivity; try lia.
    destruct (Ascii.eqb c "$"%char).
    - destruct u as [|d u']; [reflexivity|].
      simpl in Hl.
      rewrite Hp, Hm, Hs.
      rewrite (IH u') by lia.
      rewrite (IH (d :: u')) by (simpl; lia). reflexivity.
    - rewrite (IH u) by lia. reflexivity. }
  apply (Hlen (List.length t)). lia.
Qed.

(** [replace] with the pattern stripped of its group, in terms of the match
    of the pattern itself. *)
Lemma replace_ungroup r t s :
  replace (ungroup r) t s =
  match exec r s with
  | None => s
  | Some m => prefix m ++ expand t m ++ suffix m
  end.
Proof.
  unfold replace. pose proof (exec_ungroup r s) as H.
  destruct (exec r s) as [m|], (exec (ungroup r) s) as [m'|]; try contradiction;
    [|reflexivity].
  rewrite (expand_same_match t m m' H). destruct H as (-> & _ & ->). reflexivity.
Qed.

End RegexFacts.

Import RegexFacts.

(** * Facts about the guard *)

Module GuardFacts.

Import Guard.

(** How [selectRe] reads the input: the keyword, white space, the captured
    clause, white space, the keyword. *)
Lemma run_selectRe st st' :
  In st' (run selectRe st) ->
  exists kw1 ws1 clause ws2 kw2,
    after st = kw1 ++ ws1 ++ clause ++ ws2 ++ kw2 ++ after st'
    /\ Forall2 (fun c x => ci x c = true) kw1 ("select" : jsstring)
    /\ forallb isWhiteSpace ws1 = true /\ ws1 <> []
    /\ forallb notFrom clause = true /\ clause <> []
    /\ forallb isWhiteSpace ws2 = true /\ ws2 <> []
    /\ Forall2 (fun c x => ci x c = true) kw2 ("from" : jsstring)
    /\ capture st' = Some clause.
Proof.
  unfold selectRe. intros H.
  change (run (Seq ?a ?b) ?s) with (flat_map (run b) (run a s)) in H.
  apply in_flat_map in H. destruct H as (s1 & H1 & H).
  apply run_lit in H1. destruct H1 as (kw1 & [_ Ha1] & Hk1 & _).
  change (run (Seq ?a ?b) ?s) with (flat_map (run b) (run a s)) in H.
  apply in_flat_map in H. destruct H as (s2 & H2 & H).
  eapply plus_with_reads in H2; [|apply star_greedy_reads].
  destruct H2 as (ws1 & [_ Ha2] & Hw1 & Hn1 & _).
  change (run (Seq ?a ?b) ?s) with (flat_map (run b) (run a s)) in H.
  apply in_flat_map in H. destruct H as (s3 & H3 & H).
  change (run (Group ?a) ?s) with
    (map (fun st' => MState (before st') (after st') (Some (consumed s st'))) (run a s)) in H3.
  apply in_map_iff in H3. destruct H3 as (s3' & <- & H3).
  eapply plus_with_reads in H3; [|apply star_lazy_reads].
  destruct H3 as (clause & [Hb3 Ha3] & Hc & Hnc & _).
  rewrite (consumed_before s2 clause s3') in H by exact Hb3.
  change (run (Seq ?a ?b) ?s) with (flat_map (run b) (run a s)) in H.
  apply in_flat_map in H. destruct H as (s4 & H4 & H).
  eapply plus_with_reads in H4; [|apply star_greedy_reads].
  destruct H4 as (ws2 & [_ Ha4] & Hw2 & Hn2 & Hcap4).
  apply run_lit in H. destruct H as (kw2 & [_ Ha5] & Hk2 & Hcap5).
  simpl in Ha4, Hcap4.
  exists kw1, ws1, clause, ws2, kw2.
  rewrite Ha1, Ha2, Ha3, Ha4, Ha5, Hcap5, Hcap4. repeat split; assumption.
Qed.

(** The clause [selectRe] captures is not empty and holds none of the
    letters f, r, o, m, in either case. *)
Lemma exec_selectRe_clause s m :
  exec selectRe s = Some m ->
  forallb notFrom (group1 m) = true /\ group1 m <> [].
Proof.
  intros H. apply exec_some in H. destruct H as (_ & st' & others & Hr & _ & Hg & _).
  assert (Hin : In st' (run selectRe (MState (rev (prefix m)) (matched m ++ suffix m) None)))
    by (rewrite Hr; left; reflexivity).
  apply run_selectRe in Hin.
  destruct Hin as (kw1 & ws1 & clause & ws2 & kw2 & _ & _ & _ & _ & Hc & Hn & _ & _ & _ & Hcap).
  unfold group1. rewrite Hg, Hcap. split; assumption.
Qed.

Lemma notFrom_ci x c :
  In x ("from" : jsstring) -> notFrom c = true -> ci x c = false.
Proof.
  unfold notFrom, noneOf, ci. intros Hx Hc.
  apply negb_true_iff in Hc.
  destruct (Ascii.eqb (canonicalize c) (canonicalize x)) eqn:E; [|reflexivity].
  rewrite <- Hc. symmetry. apply existsb_exists. exists x. split; assumption.
Qed.

Lemma notFrom_clause_ci x clause :
  In x ("from" : jsstring) -> forallb notFrom clause = true ->
  forall c, In c clause -> ci x c = false.
Proof.
  intros Hx Hall c Hc. apply notFrom_ci; [assumption|].
  rewrite forallb_forall in Hall. apply Hall. assumption.
Qed.

(** Each forbidden name holds one of the letters of the class. *)
Lemma forbidden_has_letter col :
  In col FORBIDDEN_COLUMNS ->
  exists x, In x col /\ In x ("from" : jsstring).
Proof.
  unfold FORBIDDEN_COLUMNS. simpl.
  intros [<-|[<-|[<-|[<-|[<-|[]]]]]].
  - exists "o"%char. simpl. tauto.
  - exists "o"%char. simpl. tauto.
  - exists "f"%char. simpl. tauto.
  - exists "m"%char. simpl. tauto.
  - exists "r"%char. simpl. tauto.
Qed.

Lemma filter_nil {A} (f : A -> bool) l :
  (forall a, In a l -> f a = false) -> filter f l = [].
Proof.
  induction l as [|a l IH]; intros H; simpl; [reflexivity|].
  rewrite (H a) by (left; reflexivity). apply IH. intros b Hb. apply H. right. exact Hb.
Qed.

(** The scan of the captured clause finds nothing, whatever the query. *)
Lemma scanSelectClause_nil sqlLower : scanSelectClause sqlLower = [].
Proof.
  unfold scanSelectClause.
  destruct (exec selectRe sqlLower) as [m|] eqn:He; [|reflexivity].
  apply exec_selectRe_clause in He. destruct He as [Hall _].
  apply filter_nil. intros col Hcol.
  destruct (forbidden_has_letter col Hcol) as (x & Hx & Hfrom).
  apply test_wordRe_false with (x := x); [assumption|].
  apply notFrom_clause_ci; assumption.
Qed.

Lemma generation_detector_silent sql :
  GenerationTool.containsForbiddenColumns sql = Report false [].
Proof.
  unfold GenerationTool.containsForbiddenColumns.
  rewrite scanSelectClause_nil. reflexivity.
Qed.

Lemma execution_detector_silent sql :
  ExecutionTool.containsForbiddenColumns sql = Report false [].
Proof.
  unfold ExecutionTool.containsForbiddenColumns.
  rewrite scanSelectClause_nil.
  destruct (match exec fromTableRe (toLowerCase sql) with Some _ => _ | None => _ end);
    reflexivity.
Qed.

Lemma sanitizeWith_no_match allowed sql :
  exec selectRe sql = None -> sanitizeWith allowed sql = sql.
Proof. intros H. unfold sanitizeWith. rewrite H. reflexivity. Qed.

(** With a match, the matched span is replaced and the rest stands. *)
Lemma sanitizeWith_match allowed sql m :
  exec selectRe sql = Some m ->
  sanitizeWith allowed sql =
  prefix m
  ++ expand ("SELECT " ++ join ", " (keptColumns allowed (group1 m)) ++ " FROM") m
  ++ suffix m.
Proof.
  intros H. unfold sanitizeWith. rewrite H.
  change selectSpanRe with (ungroup selectRe).
  rewrite replace_ungroup, H. unfold keptColumns.
  destruct (filter keepColumn (map trim (split ","%char (group1 m)))); reflexivity.
Qed.

End GuardFacts.

Import GuardFacts.

(** ** The execution gate *)

(** [execute] with the detector's constant answer put in. *)
Lemma execute_unfold env client cs query :
  execute env client cs query =
  match orElse cs env with
  | Some ((_ :: _) as dbUrl) =>
      tryFinally
        (tryCatch
           (_ <- clientConnect client dbUrl ;;
            if negb (isSelect query) then throw (JsError selectOnlyMessage)
            else
              result <- executeQuery client query ;;
              rowCount <- lengthOf result ;;
              ret (MkResult true result (Some rowCount) query None None))
           (fun error =>
              ret (MkResult false None None query None (Some (messageOf error)))))
        (clientEnd client)
  | _ =>
      throw (JsError "No connection string provided and NEWS_DATABASE_URL is not set in environment variables")
  end.
Proof.
  unfold execute, executeWith. rewrite execution_detector_silent. reflexivity.
Qed.

Ltac gate_cases client query :=
  unfold tryFinally, tryCatch, bind, clientConnect, clientEnd, executeQuery,
    clientQuery, lengthOf, ret, throw, answer;
  destruct (connectAnswer client) as [?e|] eqn:?Hconnect;
  destruct (isSelect query) eqn:?Hselect;
  destruct (queryAnswer client query) as [?e|[?rows|]] eqn:?Hquery;
  destruct (endAnswer client) as [?e|] eqn:?Hend;
  cbn [negb fst snd app].

Module RewriteFacts.

Import Guard.

(** *** The column filter keeps whatever the capture can hold *)

Lemma lowerChar_notFrom c : notFrom (lowerChar c) = notFrom c.
Proof. destruct c as [[] [] [] [] [] [] [] []]; reflexivity. Qed.

Lemma In_trimStart c s : In c (trimStart s) -> In c s.
Proof.
  induction s as [|a s IH]; simpl; [auto|].
  destruct (isWhiteSpace a); [right; auto|auto].
Qed.

Lemma In_trim c s : In c (trim s) -> In c s.
Proof.
  unfold trim, trimEnd. intros H. apply in_rev in H. apply In_trimStart in H.
  apply in_rev in H. apply In_trimStart in H. exact H.
Qed.

Lemma In_replace_empty r c s : In c (replace r [] s) -> In c s.
Proof.
  unfold replace. destruct (exec r s) as [m|] eqn:He; [|auto].
  intros H. rewrite (exec_parts r s m He). simpl in H.
  apply in_app_or in H. apply in_or_app. destruct H as [H|H]; [left; exact H|].
  right. apply in_or_app. right. exact H.
Qed.

Lemma In_replace_all_from_empty r c : forall rest pre skip,
  In c (replace_all_from r [] pre rest skip) -> In c rest.
Proof.
  induction rest as [|a rest IH]; intros pre skip H.
  - destruct skip; simpl in H; [|destruct H].
    destruct (run r (MState pre [] None)); destruct H.
  - destruct skip; simpl in H.
    + destruct (run r (MState pre (a :: rest) None)) as [|st' others].
      * destruct H as [H|H]; [left; exact H|right; eapply IH; exact H].
      * simpl in H.
        destruct (List.length (consumed (MState pre [] None) st')).
        -- destruct H as [H|H]; [left; exact H|right; eapply IH; exact H].
        -- right; eapply IH; exact H.
    + right; eapply IH; exact H.
Qed.

Lemma In_replace_all_empty r c s : In c (replace_all r [] s) -> In c s.
Proof. apply In_replace_all_from_empty. Qed.

Lemma from_letter_not_notFrom x : In x ("from" : jsstring) -> notFrom x = false.
Proof. simpl. intros [<-|[<-|[<-|[<-|[]]]]]; reflexivity. Qed.

Lemma keepColumn_notFrom col : forallb notFrom col = true -> keepColumn col = true.
Proof.
  intros Hall. unfold keepColumn. apply negb_true_iff.
  destruct (arrayIncludes FORBIDDEN_COLUMNS _) eqn:E; [exfalso|reflexivity].
  unfold arrayIncludes in E. apply existsb_exists in E.
  destruct E as (name & Hname & Heq). unfold str_eqb in Heq.
  destruct (list_eq_dec ascii_dec _ name) as [Hn|]; [|discriminate].
  destruct (forbidden_has_letter name Hname) as (x & Hx & Hfrom).
  rewrite <- Hn in Hx.
  apply In_trim, In_replace_all_empty, (In_replace_empty tablePrefixRe) in Hx.
  unfold toLowerCase in Hx. apply in_map_iff in Hx. destruct Hx as (c & <- & Hc).
  rewrite forallb_forall in Hall. specialize (Hall c Hc).
  rewrite <- lowerChar_notFrom, (from_letter_not_notFrom _ Hfrom) in Hall.
  discriminate.
Qed.

(** *** Columns as the rewriter writes them *)




Lemma split_no_sep sep s :
  forallb (fun c => negb (Ascii.eqb c sep)) s = true -> split sep s = [s].
Proof.
  induction s as [|a s IH]; simpl; [reflexivity|]. intros H.
  apply andb_true_iff in H. destruct H as [Ha H]. apply negb_true_iff in Ha.
  rewrite Ha, (IH H). reflexivity.
Qed.

Lemma split_app_sep sep a b :
  forallb (fun c => negb (Ascii.eqb c sep)) a = true ->
  split sep (a ++ sep :: b) = a :: split sep b.
Proof.
  induction a as [|x a IH]; simpl.
  - rewrite Ascii.eqb_refl. reflexivity.
  - intros H. apply andb_true_iff in H. destruct H as [Hx H]. apply negb_true_iff in Hx.
    rewrite Hx, (IH H). reflexivity.
Qed.



Lemma filter_all {A} (f : A -> bool) l :
  (forall a, In a l -> f a = true) -> filter f l = l.
Proof.
  induction l as [|a l IH]; intros H; simpl; [reflexivity|].
  rewrite (H a) by (left; reflexivity). f_equal. apply IH. intros b Hb. apply H. right. exact Hb.
Qed.


(** *** The match on a query in the rewriter's own form *)









Lemma exec_from_head r pre rest st' others :
  run r (MState pre rest None) = st' :: others ->
  exec_from r pre rest = Some (result_at pre st').
Proof. intros H. destruct rest; simpl; rewrite H; reflexivity. Qed.


(** *** The projection the rewriter writes *)

Lemma forallb_join p sep cols :
  forallb p sep = true -> forallb (forallb p) cols = true ->
  forallb p (join sep cols) = true.
Proof.
  intros Hsep. induction cols as [|col cols IH]; intros H; [reflexivity|].
  simpl in H. apply andb_true_iff in H. destruct H as [Hcol H].
  destruct cols as [|col2 cols]; [exact Hcol|].
  change (join sep (col :: col2 :: cols)) with (col ++ sep ++ join sep (col2 :: cols)).
  rewrite !forallb_app, Hcol, Hsep, (IH H). reflexivity.
Qed.




Lemma expand_no_dollar m t :
  forallb (fun c => negb (Ascii.eqb c "$"%char)) t = true -> expand t m = t.
Proof.
  induction t as [|c t IH]; intros H; [reflexivity|].
  simpl in H. apply andb_true_iff in H. destruct H as [Hc H].
  apply negb_true_iff in Hc. simpl. rewrite Hc, (IH H). reflexivity.
Qed.



End RewriteFacts.

Import RewriteFacts.

(** * Facts about the pieces of the rewriter *)

Module PieceFacts.

Import Guard.

Lemma split_not_nil sep s : split sep s <> [].
Proof.
  destruct s as [|c t]; simpl; [discriminate|].
  destruct (Ascii.eqb c sep); [discriminate|].
  destruct (split sep t); discriminate.
Qed.

(** The pieces of [split] are made of code units of the string, and none
    holds the separator. *)
Lemma split_piece sep s : forall piece c,
  In piece (split sep s) -> In c piece -> In c s /\ c <> sep.
Proof.
  induction s as [|a s IH]; intros piece c Hp Hc; simpl in Hp.
  - destruct Hp as [<-|[]]. destruct Hc.
  - destruct (Ascii.eqb a sep) eqn:E.
    + destruct Hp as [<-|Hp]; [destruct Hc|].
      destruct (IH piece c Hp Hc) as [H1 H2]. split; [right; exact H1|exact H2].
    + destruct (split sep s) as [|h r] eqn:Es.
      * destruct Hp as [<-|[]]. destruct Hc as [<-|[]].
        split; [left; reflexivity|]. intros ->. rewrite Ascii.eqb_refl in E. discriminate.
      * destruct Hp as [<-|Hp].
        -- destruct Hc as [<-|Hc].
           ++ split; [left; reflexivity|]. intros ->.
              rewrite Ascii.eqb_refl in E. discriminate.
           ++ destruct (IH h c (or_introl eq_refl) Hc) as [H1 H2].
              split; [right; exact H1|exact H2].
        -- destruct (IH piece c (or_intror Hp) Hc) as [H1 H2].
           split; [right; exact H1|exact H2].
Qed.

Lemma forallb_trimmed_pieces p clause :
  forallb p clause = true ->
  forallb (forallb p) (map trim (split ","%char clause)) = true.
Proof.
  intros H. rewrite forallb_forall in H.
  apply forallb_forall. intros col Hcol.
  apply in_map_iff in Hcol. destruct Hcol as (piece & <- & Hpiece).
  apply forallb_forall. intros c Hc. apply H.
  apply In_trim in Hc. apply (split_piece _ _ _ _ Hpiece Hc).
Qed.

(** On a clause the pattern can capture, the filter keeps every column and
    the fallback is not used. *)
Lemma keptColumns_all allowed clause :
  forallb notFrom clause = true ->
  keptColumns allowed clause = map trim (split ","%char clause).
Proof.
  intros H. unfold keptColumns. rewrite filter_all.
  - destruct (map trim (split ","%char clause)) eqn:E; [|reflexivity].
    apply map_eq_nil in E. destruct (split_not_nil _ _ E).
  - intros col Hcol. apply keepColumn_notFrom.
    pose proof (forallb_trimmed_pieces notFrom clause H) as Hall.
    rewrite forallb_forall in Hall. apply Hall. exact Hcol.
Qed.

(** [sanitizeSQL], whatever the fallback list *)
Lemma sanitizeWith_keeps_all allowed q :
  sanitizeWith allowed q =
  match exec selectRe q with
  | None => q
  | Some m =>
      prefix m
      ++ expand ("SELECT " ++ join ", " (map trim (split ","%char (group1 m))) ++ " FROM") m
      ++ suffix m
  end.
Proof.
  destruct (exec selectRe q) as [m|] eqn:He.
  - rewrite (sanitizeWith_match allowed q m He).
    rewrite keptColumns_all; [reflexivity|].
    apply (exec_selectRe_clause q m He).
  - apply sanitizeWith_no_match. exact He.
Qed.

Lemma sanitizeWith_literal allowed q m :
  exec selectRe q = Some m ->
  forallb noDollar (group1 m) = true ->
  sanitizeWith allowed q =
  prefix m ++ "SELECT " ++ join ", " (map trim (split ","%char (group1 m)))
  ++ " FROM" ++ suffix m.
Proof.
  intros He Hd. rewrite sanitizeWith_keeps_all, He.
  rewrite expand_no_dollar.
  - rewrite <- !app_assoc. reflexivity.
  - rewrite !forallb_app. change (forallb _ ("SELECT " : jsstring)) with true.
    change (forallb _ (" FROM" : jsstring)) with true.
    rewrite andb_true_r. cbn [andb].
    apply forallb_join; [reflexivity|].
    apply (forallb_trimmed_pieces noDollar). exact Hd.
Qed.

(** *** The table prefix and the column filter *)

Lemma flat_map_nil {A B} (f : A -> list B) l :
  (forall a, In a l -> f a = []) -> flat_map f l = [].
Proof.
  induction l as [|a l IH]; intros H; simpl; [reflexivity|].
  rewrite (H a) by (left; reflexivity). apply IH. intros b Hb. apply H. right. exact Hb.
Qed.

(** The greedy loop tries the positions past a stretch of the class before
    the positions inside it. *)
Lemma star_greedy_app p rest : forall l pre,
  forallb p l = true ->
  exists shorter,
    star_greedy p pre (l ++ rest) = star_greedy p (rev l ++ pre) rest ++ shorter.
Proof.
  induction l as [|a l IH]; intros pre H.
  - exists []. rewrite app_nil_r. reflexivity.
  - simpl in H. apply andb_true_iff in H. destruct H as [Ha H].
    destruct (IH (a :: pre) H) as [shorter Hs].
    exists (shorter ++ [(pre, (a :: l) ++ rest)]).
    simpl. rewrite Ha, Hs, <- !app_assoc. reflexivity.
Qed.

(** [colLower.replace(/^[\w.]+\./, '')] on a qualified name: the qualifier
    and its dot go, what follows stays. *)
Lemma replace_tablePrefix qualifier tail :
  qualifier <> [] -> forallb wordOrDot qualifier = true ->
  forallb (fun c => negb (Ascii.eqb c "."%char)) tail = true ->
  replace tablePrefixRe [] (qualifier ++ "."%char :: tail) = tail.
Proof.
  intros Hne Hq Ht. destruct qualifier as [|c qual]; [contradiction|].
  simpl in Hq. apply andb_true_iff in Hq. destruct Hq as [Hc Hq].
  set (P := rev qual ++ [c]).
  assert (Hrun : exists others,
    run tablePrefixRe (MState [] ((c :: qual) ++ "."%char :: tail) None)
    = MState ("."%char :: P) tail None :: others).
  { unfold tablePrefixRe.
    change (run (Seq ?a ?b) ?s) with (flat_map (run b) (run a s)).
    change (run AssertStart (MState [] ?x None)) with [MState [] x None].
    change (flat_map ?f [?x]) with (f x ++ []). rewrite app_nil_r.
    change (run (Seq ?a ?b) ?s) with (flat_map (run b) (run a s)).
    change (run (Plus wordOrDot) (MState [] ((c :: qual) ++ "."%char :: tail) None))
      with (if wordOrDot c
            then map (fun pr => MState (fst pr) (snd pr) None)
                     (star_greedy wordOrDot [c] (qual ++ "."%char :: tail))
            else []).
    rewrite Hc.
    destruct (star_greedy_app wordOrDot ("."%char :: tail) qual [c] Hq) as [shorter Hs].
    rewrite Hs. fold P.
    change (star_greedy wordOrDot P ("."%char :: tail))
      with (star_greedy wordOrDot ("."%char :: P) tail ++ [(P, "."%char :: tail)]).
    rewrite !map_app, !flat_map_app.
    rewrite flat_map_nil.
    - simpl. eexists. reflexivity.
    - intros st Hst. apply in_map_iff in Hst. destruct Hst as ([pre' rest'] & <- & Hin).
      apply star_greedy_reads in Hin. destruct Hin as (l & _ & Htail & _).
      cbn [run after fst snd]. destruct rest' as [|d rest']; [reflexivity|].
      rewrite forallb_forall in Ht.
      assert (Hd : In d tail) by (rewrite Htail; apply in_or_app; right; left; reflexivity).
      specialize (Ht d Hd). apply negb_true_iff in Ht.
      rewrite Ascii.eqb_sym, Ht. reflexivity. }
  destruct Hrun as [others Hrun].
  unfold replace, exec. rewrite (exec_from_head _ _ _ _ _ Hrun). reflexivity.
Qed.

Lemma quote_cases c : quote c = true -> c = ascii_of_nat 34 \/ c = ascii_of_nat 39.
Proof.
  destruct c as [[] [] [] [] [] [] [] []]; intros H; try discriminate H;
    [right|left]; reflexivity.
Qed.

Lemma optionalQuote_cases q :
  optionalQuote q = true -> q = [] \/ q = [ascii_of_nat 34] \/ q = [ascii_of_nat 39].
Proof.
  destruct q as [|c [|d q]]; simpl; intros H; try discriminate; [left; reflexivity|].
  right. destruct (quote_cases c H) as [->| ->]; [left|right]; reflexivity.
Qed.

(** The filter drops a forbidden name, bare or quoted, with or without a
    qualifier. *)
Lemma keepColumn_forbidden col name q q' qualifier :
  In name FORBIDDEN_COLUMNS ->
  optionalQuote q = true -> optionalQuote q' = true ->
  forallb wordOrDot qualifier = true ->
  toLowerCase col = qualifierDot qualifier ++ q ++ name ++ q' ->
  keepColumn col = false.
Proof.
  intros Hname Hq Hq' Hqual Hcol. unfold keepColumn. rewrite Hcol.
  destruct qualifier as [|c qual].
  - simpl qualifierDot. rewrite app_nil_l.
    destruct (optionalQuote_cases q Hq) as [->|[->| ->]];
      destruct (optionalQuote_cases q' Hq') as [->|[->| ->]];
      simpl in Hname;
      destruct Hname as [<-|[<-|[<-|[<-|[<-|[]]]]]]; vm_compute; reflexivity.
  - unfold qualifierDot. rewrite <- app_assoc.
    change (("." : jsstring) ++ q ++ name ++ q') with ("."%char :: q ++ name ++ q').
    rewrite replace_tablePrefix; [|discriminate|exact Hqual|].
    + destruct (optionalQuote_cases q Hq) as [->|[->| ->]];
        destruct (optionalQuote_cases q' Hq') as [->|[->| ->]];
        simpl in Hname;
        destruct Hname as [<-|[<-|[<-|[<-|[<-|[]]]]]]; vm_compute; reflexivity.
    + destruct (optionalQuote_cases q Hq) as [->|[->| ->]];
        destruct (optionalQuote_cases q' Hq') as [->|[->| ->]];
        simpl in Hname;
        destruct Hname as [<-|[<-|[<-|[<-|[<-|[]]]]]]; vm_compute; reflexivity.
Qed.

(** *** The model name *)

Lemma includes_single s c : includes s [c] = existsb (Ascii.eqb c) s.
Proof.
  induction s as [|a s IH]; [reflexivity|].
  cbn [includes isPrefix existsb]. rewrite IH.
  destruct s; rewrite andb_true_r; reflexivity.
Qed.

Lemma noSlash_existsb s :
  forallb noSlash s = true <-> existsb (Ascii.eqb "/"%char) s = false.
Proof.
  induction s as [|a s IH]; cbn [forallb existsb]; [tauto|]. unfold noSlash at 1.
  rewrite (Ascii.eqb_sym a). destruct (Ascii.eqb "/"%char a); cbn [negb andb orb];
    [|exact IH].
  split; discriminate.
Qed.

Lemma modelString_some m : m <> [] -> GenerationRun.modelString (Some m) = m.
Proof. destruct m; [contradiction|reflexivity]. Qed.

Lemma modelName_no_slash MODEL : forallb noSlash (GenerationRun.modelName MODEL) = true.
Proof.
  unfold GenerationRun.modelName.
  change (list_ascii_of_string "/") with ["/"%char]. rewrite includes_single.
  destruct (existsb _ _) eqn:E.
  - destruct (nth_in_or_default 1 (split "/"%char (GenerationRun.modelString MODEL)) [])
      as [Hin| ->]; [|reflexivity].
    apply forallb_forall. intros c Hc.
    destruct (split_piece _ _ _ _ Hin Hc) as [_ Hne].
    unfold noSlash. apply negb_true_iff. apply Ascii.eqb_neq. exact Hne.
  - apply noSlash_existsb. exact E.
Qed.

Lemma modelName_plain m :
  m <> [] -> forallb noSlash m = true -> GenerationRun.modelName (Some m) = m.
Proof.
  intros Hne H. unfold GenerationRun.modelName.
  change (list_ascii_of_string "/") with ["/"%char].
  rewrite (modelString_some m Hne), includes_single.
  apply noSlash_existsb in H. rewrite H. reflexivity.
Qed.

Lemma slash_included provider tail :
  existsb (Ascii.eqb "/"%char) (provider ++ "/"%char :: tail) = true.
Proof.
  apply existsb_exists. exists "/"%char. split; [|reflexivity].
  apply in_or_app. right. left. reflexivity.
Qed.

Lemma modelName_prefixed provider name :
  forallb noSlash provider = true -> forallb noSlash name = true ->
  GenerationRun.modelName (Some (provider ++ "/"%char :: name)) = name.
Proof.
  intros Hp Hn. unfold GenerationRun.modelName.
  change (list_ascii_of_string "/") with ["/"%char].
  rewrite modelString_some by (destruct provider; discriminate).
  rewrite includes_single, slash_included.
  rewrite split_app_sep by exact Hp. rewrite split_no_sep by exact Hn. reflexivity.
Qed.

Lemma modelName_prefixed_twice provider name rest :
  forallb noSlash provider = true -> forallb noSlash name = true ->
  GenerationRun.modelName (Some (provider ++ "/"%char :: name ++ "/"%char :: rest)) = name.
Proof.
  intros Hp Hn. unfold GenerationRun.modelName.
  change (list_ascii_of_string "/") with ["/"%char].
  rewrite modelString_some by (destruct provider; discriminate).
  rewrite includes_single, slash_included.
  rewrite split_app_sep by exact Hp. rewrite split_app_sep by exact Hn. reflexivity.
Qed.

End PieceFacts.

Import PieceFacts.

(** * The statements of the specification *)

(** C1. On the query of scenario 1 the detector of either tool file reports no
    forbidden column, not [content], and the rewriter of either file returns
    the query as it came, [content] included: the class [[^from]] stops the
    capture at the [o] of [content], so that nothing is extracted. *)
Theorem C1_scenario1_undetected :
  GenerationTool.containsForbiddenColumns scenario1 = Report false []
  /\ ExecutionTool.containsForbiddenColumns scenario1 = Report false []
  /\ GenerationTool.sanitizeSQL scenario1 = scenario1
  /\ ExecutionTool.sanitizeSQL scenario1 = scenario1.
Proof. repeat split; vm_compute; reflexivity. Qed.

(** C2. For every input string the detector, in the generation tool and in
    the execution tool, reports [hasForbidden = false] and an empty list of
    forbidden columns: the clause captured through [[^from]] holds none of
    the letters f, r, o, m, and each forbidden name holds one of them. *)
Theorem C2_detector_never_fires (sql : jsstring) :
  GenerationTool.containsForbiddenColumns sql = Report false []
  /\ ExecutionTool.containsForbiddenColumns sql = Report false []
  /\ (forall m, exec selectRe (toLowerCase sql) = Some m ->
        forallb notFrom (group1 m) = true)
  /\ (forall col, In col Guard.FORBIDDEN_COLUMNS ->
        exists x, In x col /\ notFrom x = false).
Proof.
  split; [apply generation_detector_silent|].
  split; [apply execution_detector_silent|].
  split.
  - intros m Hm. apply (exec_selectRe_clause _ _ Hm).
  - intros col Hcol. destruct (forbidden_has_letter col Hcol) as (x & Hx & Hfrom).
    exists x. split; [exact Hx|]. apply from_letter_not_notFrom. exact Hfrom.
Qed.

(** C3 (counterexample). With no connection string in the call and none in
    the environment, [execute] raises instead of returning a tagged result. *)
Lemma C3_missing_configuration_raises :
  ~ (exists t r, execute None sampleClient None scenario1 = (t, inr r)).
Proof. intros (t & r & H). vm_compute in H. discriminate. Qed.

(** C3 (amended). When a connection string is at hand and closing the client
    does not throw, [execute] returns a result value on every query and every
    client; in every result an error message is present exactly when
    [success] is false; and [success] is false whenever connecting threw,
    the statement is not a SELECT, running the query threw, or the driver
    answered without a [rows] array. *)
Theorem C3_execute_returns_tagged env client cs query :
  truthy (orElse cs env) = true ->
  endAnswer client = None ->
  exists t r,
    execute env client cs query = (t, inr r)
    /\ (success r = false <-> error r <> None)
    /\ (connectAnswer client <> None \/ isSelect query = false
        \/ (exists e, queryAnswer client query = inl e)
        \/ queryAnswer client query = inr None ->
        success r = false).
Proof.
  intros Hurl Hend. rewrite execute_unfold.
  destruct (orElse cs env) as [[|c u]|]; try discriminate.
  gate_cases client query; try discriminate;
    eexists; eexists; (split; [reflexivity|]); cbn [success error];
    (split; [split|]); try discriminate; try congruence; eauto;
    try (intros [H|[H|[[e1 H]|H]]]; congruence).
Qed.

Lemma C3_execute_returns_tagged_witness :
  exists t r,
    execute None sampleClient (Some sampleUrl) scenario4 = (t, inr r)
    /\ (success r = false <-> error r <> None)
    /\ (connectAnswer sampleClient <> None \/ isSelect scenario4 = false
        \/ (exists e, queryAnswer sampleClient scenario4 = inl e)
        \/ queryAnswer sampleClient scenario4 = inr None ->
        success r = false).
Proof.
  apply (C3_execute_returns_tagged None sampleClient (Some sampleUrl) scenario4);
    reflexivity.
Defined.



(** C5 (counterexample). The UPDATE statement of scenario 4 is rejected only
    after the connection to the database has been opened: the call has
    driver traffic. *)
Lemma C5_rejected_after_connecting :
  isSelect scenario4 = false
  /\ fst (execute None sampleClient (Some sampleUrl) scenario4)
     = [Connect sampleUrl; End].
Proof. split; vm_compute; reflexivity. Qed.

(** C5 (amended). A query whose trimmed, lower-cased text does not start with
    [select] reaches neither the detector, nor the rewriter, nor the
    execution of a statement: no statement is sent on any client, and the
    outcome is the same whatever detector and rewriter are plugged in.  The
    connection is opened before the check; when it opens and closes without
    throwing, the outcome is the tagged failure with the fixed message. *)
Theorem C5_non_select_rejected env client cs query :
  isSelect query = false ->
  (forall sql, ~ In (Query sql) (fst (execute env client cs query)))
  /\ (forall detect sanitize,
        executeWith detect sanitize env client cs query = execute env client cs query)
  /\ (forall dbUrl,
        orElse cs env = Some dbUrl -> dbUrl <> [] ->
        connectAnswer client = None -> endAnswer client = None ->
        execute env client cs query =
        ([Connect dbUrl; End],
         inr (MkResult false None None query None (Some selectOnlyMessage)))).
Proof.
  intros Hsel. split; [|split].
  - intros sql. rewrite execute_unfold.
    destruct (orElse cs env) as [[|c u]|]; try (intros []).
    gate_cases client query; try discriminate; cbn;
      intros H; repeat (destruct H as [H|H]; try discriminate); contradiction.
  - intros detect sanitize. unfold execute, executeWith.
    destruct (orElse cs env) as [[|c u]|]; try reflexivity.
    fold (isSelect query). rewrite Hsel. reflexivity.
  - intros dbUrl Hurl Hne Hc He. rewrite execute_unfold, Hurl.
    destruct dbUrl as [|c u]; [contradiction|].
    unfold tryFinally, tryCatch, bind, clientConnect, clientEnd, answer, throw, ret.
    rewrite Hc, He, Hsel. reflexivity.
Qed.

Lemma C5_non_select_rejected_witness :
  isSelect scenario4 = false
  /\ (forall sql,
        ~ In (Query sql) (fst (execute None sampleClient (Some sampleUrl) scenario4)))
  /\ (forall detect sanitize,
        executeWith detect sanitize None sampleClient (Some sampleUrl) scenario4
        = execute None sampleClient (Some sampleUrl) scenario4)
  /\ (forall dbUrl,
        orElse (Some sampleUrl) None = Some dbUrl -> dbUrl <> [] ->
        connectAnswer sampleClient = None -> endAnswer sampleClient = None ->
        execute None sampleClient (Some sampleUrl) scenario4 =
        ([Connect dbUrl; End],
         inr (MkResult false None None scenario4 None (Some selectOnlyMessage)))).
Proof.
  split; [reflexivity|].
  apply (C5_non_select_rejected None sampleClient (Some sampleUrl) scenario4).
  reflexivity.
Defined.

(** C6. On the query of scenario 2, whose two columns are both forbidden, the
    rewriter of either tool file returns the query as it came and not the
    fallback projection. *)
Theorem C6_scenario2_no_fallback :
  GenerationTool.sanitizeSQL scenario2 = scenario2
  /\ ExecutionTool.sanitizeSQL scenario2 = scenario2
  /\ ExecutionTool.sanitizeSQL scenario2 <>
     ("SELECT id, title, slug, symbol, url, published_at FROM articles" : jsstring).
Proof. repeat split; vm_compute; try reflexivity; discriminate. Qed.




(** C8. Closure: for every query, the detector run on the output of the
    rewriter reports no violation, in both tool files. *)
Theorem C8_closure (q : jsstring) :
  hasForbidden (GenerationTool.containsForbiddenColumns (GenerationTool.sanitizeSQL q)) = false
  /\ hasForbidden (ExecutionTool.containsForbiddenColumns (ExecutionTool.sanitizeSQL q)) = false.
Proof.
  rewrite generation_detector_silent, execution_detector_silent. split; reflexivity.
Qed.

(** C9. Fail-open: when no SELECT...FROM pair can be extracted from the
    query, the detector reports no violation and the rewriter returns the
    query unchanged, in both tool files. *)
Theorem C9_fail_open (q : jsstring) :
  exec selectRe q = None ->
  hasForbidden (GenerationTool.containsForbiddenColumns q) = false
  /\ hasForbidden (ExecutionTool.containsForbiddenColumns q) = false
  /\ GenerationTool.sanitizeSQL q = q
  /\ ExecutionTool.sanitizeSQL q = q.
Proof.
  intros H. rewrite generation_detector_silent, execution_detector_silent.
  repeat split; apply sanitizeWith_no_match; assumption.
Qed.

Lemma C9_fail_open_witness :
  hasForbidden (GenerationTool.containsForbiddenColumns scenario4) = false
  /\ hasForbidden (ExecutionTool.containsForbiddenColumns scenario4) = false
  /\ GenerationTool.sanitizeSQL scenario4 = scenario4
  /\ ExecutionTool.sanitizeSQL scenario4 = scenario4.
Proof. apply (C9_fail_open scenario4). vm_compute. reflexivity. Defined.


(** * Further properties of the code *)

(** ** The execution gate *)

(** X1. Connection lifecycle.  With a connection string at hand, a call of
    [execute] opens the connection first, closes the client last, and sends
    between the two nothing or the query of the call, once.  Without one it
    throws before any use of a client. *)
Theorem X1_connection_lifecycle env client cs query :
  match orElse cs env with
  | Some ((_ :: _) as dbUrl) =>
      exists middle,
        fst (execute env client cs query) = Connect dbUrl :: middle ++ [End]
        /\ (middle = [] \/ middle = [Query query])
  | _ => execute env client cs query = ([], inl (JsError noUrlMessage))
  end.
Proof.
  rewrite execute_unfold.
  destruct (orElse cs env) as [[|c u]|]; try reflexivity.
  gate_cases client query;
    first [ (exists []; split; [reflexivity|left; reflexivity])
          | (exists [Query query]; split; [reflexivity|right; reflexivity]) ].
Qed.

(** X2. What the execution tool passes to the driver is the text of the
    call as it came, and only when that text, once trimmed and lower-cased,
    starts with [select].  The check reads the start of the text and nothing
    more. *)
Theorem X2_sent_text_is_checked_query env client cs query sent :
  In (Query sent) (fst (execute env client cs query)) ->
  sent = query /\ isSelect query = true.
Proof.
  rewrite execute_unfold.
  destruct (orElse cs env) as [[|c u]|]; try (intros []).
  gate_cases client query; cbn; intros H;
    repeat (destruct H as [H|H]; try discriminate);
    try contradiction; inversion H; subst; split; reflexivity.
Qed.

Lemma X2_sent_text_is_checked_query_witness :
  scenarioTwoStatements = scenarioTwoStatements
  /\ isSelect scenarioTwoStatements = true.
Proof.
  apply (X2_sent_text_is_checked_query None sampleClient (Some sampleUrl)
           scenarioTwoStatements scenarioTwoStatements).
  vm_compute. right. left. reflexivity.
Defined.

(** X3. A non-empty [connectionString] argument decides the database: the
    environment variable is not consulted, so that the call is the same
    under any two environments. *)
Theorem X3_connection_string_precedence env env' client cs query :
  truthy cs = true ->
  execute env client cs query = execute env' client cs query.
Proof.
  intros H. unfold execute, executeWith, orElse. rewrite H. reflexivity.
Qed.

Lemma X3_connection_string_precedence_witness :
  execute None sampleClient (Some sampleUrl) scenario1
  = execute (Some ("postgres://other" : jsstring)) sampleClient (Some sampleUrl) scenario1.
Proof.
  apply (X3_connection_string_precedence None (Some ("postgres://other" : jsstring))
           sampleClient (Some sampleUrl) scenario1).
  reflexivity.
Defined.

(** X4. The success path: when the connection opens, the statement passes
    the check, the driver answers rows and the client closes, [execute]
    returns those rows as [data], their number as [rowCount], the query as
    [executedQuery], no warning and no error. *)
Theorem X4_success_path env client cs query dbUrl rows :
  orElse cs env = Some dbUrl -> dbUrl <> [] ->
  connectAnswer client = None -> isSelect query = true ->
  queryAnswer client query = inr (Some rows) -> endAnswer client = None ->
  execute env client cs query =
  ([Connect dbUrl; Query query; End],
   inr (MkResult true (Some rows) (Some (List.length rows)) query None None)).
Proof.
  intros Hurl Hne Hc Hs Hq He. rewrite execute_unfold, Hurl.
  destruct dbUrl as [|c u]; [contradiction|].
  unfold tryFinally, tryCatch, bind, clientConnect, clientEnd, executeQuery,
    clientQuery, lengthOf, ret, throw, answer.
  rewrite Hc, Hs, Hq, He. reflexivity.
Qed.

Lemma X4_success_path_witness :
  execute None sampleClient (Some sampleUrl) "SELECT id FROM news" =
  ([Connect sampleUrl; Query "SELECT id FROM news"; End],
   inr (MkResult true (Some [[("id" : jsstring, "1" : jsstring)]])
          (Some (List.length [[("id" : jsstring, "1" : jsstring)]]))
          "SELECT id FROM news" None None)).
Proof.
  apply (X4_success_path None sampleClient (Some sampleUrl) "SELECT id FROM news"
           sampleUrl [[("id" : jsstring, "1" : jsstring)]]);
    try reflexivity; discriminate.
Defined.

(** X5. A failure of the driver on the statement comes back as a result with
    [success = false] whose error is the driver's message behind the prefix
    [Failed to execute query: ], whether the driver threw an [Error] or
    another value. *)
Theorem X5_query_failure_is_prefixed env client cs query dbUrl e :
  orElse cs env = Some dbUrl -> dbUrl <> [] ->
  connectAnswer client = None -> isSelect query = true ->
  queryAnswer client query = inl e -> endAnswer client = None ->
  execute env client cs query =
  ([Connect dbUrl; Query query; End],
   inr (MkResult false None None query None
          (Some ("Failed to execute query: " ++ messageOf e)))).
Proof.
  intros Hurl Hne Hc Hs Hq He. rewrite execute_unfold, Hurl.
  destruct dbUrl as [|c u]; [contradiction|].
  unfold tryFinally, tryCatch, bind, clientConnect, clientEnd, executeQuery,
    clientQuery, lengthOf, ret, throw, answer.
  rewrite Hc, Hs, Hq, He. reflexivity.
Qed.

Lemma X5_query_failure_is_prefixed_witness :
  execute None (MkClient None (fun _ => inl (JsOther "timeout")) None)
    (Some sampleUrl) "SELECT id FROM news" =
  ([Connect sampleUrl; Query "SELECT id FROM news"; End],
   inr (MkResult false None None "SELECT id FROM news" None
          (Some ("Failed to execute query: " ++ messageOf (JsOther "timeout"))))).
Proof.
  apply (X5_query_failure_is_prefixed None
           (MkClient None (fun _ => inl (JsOther "timeout")) None)
           (Some sampleUrl) "SELECT id FROM news" sampleUrl (JsOther "timeout"));
    try reflexivity; discriminate.
Defined.

(** X6. A failure to connect ends the call before the statement is looked
    at: whatever the query, nothing is sent, and the result carries the
    driver's message as it is, without prefix. *)
Theorem X6_connect_failure env client cs query dbUrl e :
  orElse cs env = Some dbUrl -> dbUrl <> [] ->
  connectAnswer client = Some e -> endAnswer client = None ->
  execute env client cs query =
  ([Connect dbUrl; End],
   inr (MkResult false None None query None (Some (messageOf e)))).
Proof.
  intros Hurl Hne Hc He. rewrite execute_unfold, Hurl.
  destruct dbUrl as [|c u]; [contradiction|].
  unfold tryFinally, tryCatch, bind, clientConnect, clientEnd, ret, throw, answer.
  rewrite Hc, He. reflexivity.
Qed.

Lemma X6_connect_failure_witness :
  execute None (MkClient (Some (JsError "ECONNREFUSED")) (fun _ => inr (Some [])) None)
    (Some sampleUrl) scenario4 =
  ([Connect sampleUrl; End],
   inr (MkResult false None None scenario4 None
          (Some (messageOf (JsError "ECONNREFUSED"))))).
Proof.
  apply (X6_connect_failure None
           (MkClient (Some (JsError "ECONNREFUSED")) (fun _ => inr (Some [])) None)
           (Some sampleUrl) scenario4 sampleUrl (JsError "ECONNREFUSED"));
    try reflexivity; discriminate.
Defined.

(** X7. A failure to close the client replaces the outcome of the call:
    [execute] then throws what [end] threw, also when the query had
    succeeded. *)
Theorem X7_close_failure_replaces_outcome env client cs query e :
  truthy (orElse cs env) = true ->
  endAnswer client = Some e ->
  snd (execute env client cs query) = inl e.
Proof.
  intros Hurl He. rewrite execute_unfold.
  destruct (orElse cs env) as [[|c u]|]; try discriminate.
  gate_cases client query; try discriminate; cbn; congruence.
Qed.

Lemma X7_close_failure_replaces_outcome_witness :
  snd (execute None (MkClient None (fun _ => inr (Some [])) (Some (JsError "socket")))
         (Some sampleUrl) "SELECT 1")
  = inl (JsError "socket").
Proof.
  apply (X7_close_failure_replaces_outcome None
           (MkClient None (fun _ => inr (Some [])) (Some (JsError "socket")))
           (Some sampleUrl) "SELECT 1" (JsError "socket")); reflexivity.
Defined.

(** X8. The shape of a returned result: there is never a warning; a success
    carries rows, their number as [rowCount] and no error; a failure carries
    an error and neither rows nor [rowCount]. *)
Theorem X8_result_shape env client cs query t r :
  execute env client cs query = (t, inr r) ->
  warning r = None
  /\ (success r = true ->
      exists rows, data r = Some rows /\ rowCount r = Some (List.length rows)
                   /\ error r = None)
  /\ (success r = false ->
      data r = None /\ rowCount r = None /\ exists message, error r = Some message).
Proof.
  rewrite execute_unfold. intros H.
  destruct (orElse cs env) as [[|c u]|]; try discriminate.
  revert H. gate_cases client query; intros H; inversion H; subst;
    cbn [warning success data rowCount error];
    (split; [reflexivity|split; intros Hs; try discriminate]);
    eauto.
Qed.

Lemma X8_result_shape_witness :
  warning (MkResult false None None scenario4 None (Some selectOnlyMessage)) = None
  /\ (success (MkResult false None None scenario4 None (Some selectOnlyMessage)) = true ->
      exists rows,
        data (MkResult false None None scenario4 None (Some selectOnlyMessage)) = Some rows
        /\ rowCount (MkResult false None None scenario4 None (Some selectOnlyMessage))
           = Some (List.length rows)
        /\ error (MkResult false None None scenario4 None (Some selectOnlyMessage)) = None)
  /\ (success (MkResult false None None scenario4 None (Some selectOnlyMessage)) = false ->
      data (MkResult false None None scenario4 None (Some selectOnlyMessage)) = None
      /\ rowCount (MkResult false None None scenario4 None (Some selectOnlyMessage)) = None
      /\ exists message,
           error (MkResult false None None scenario4 None (Some selectOnlyMessage))
           = Some message).
Proof.
  apply (X8_result_shape None sampleClient (Some sampleUrl) scenario4
           [Connect sampleUrl; End]).
  reflexivity.
Defined.

(** X9. The guarded execution tool and the unguarded one are the same
    function: on every environment, client, connection string and query they
    make the same driver calls and end in the same outcome. *)
Theorem X9_guard_changes_nothing env client cs query :
  ExecutionTool.execute env client cs query
  = ExecutionToolUnguarded.execute env client cs query.
Proof. rewrite execute_unfold. reflexivity. Qed.

(** ** The rewriter *)


(** X11. The two copies of [sanitizeSQL] are the same function, although
    their fallback lists differ ([symbols] in one, [symbol] in the other). *)
Theorem X11_rewriter_copies_agree (q : jsstring) :
  GenerationTool.sanitizeSQL q = ExecutionTool.sanitizeSQL q.
Proof.
  unfold GenerationTool.sanitizeSQL, ExecutionTool.sanitizeSQL.
  rewrite !sanitizeWith_keeps_all. reflexivity.
Qed.

(** X12. When the captured clause holds no dollar sign, the new span is the
    template read literally: [SELECT], a space, the columns, a space,
    [FROM]; the text around the span is kept. *)
Theorem X12_rewriter_literal_span (q : jsstring) (m : mresult) :
  exec selectRe q = Some m ->
  forallb noDollar (group1 m) = true ->
  ExecutionTool.sanitizeSQL q =
  prefix m ++ "SELECT " ++ join ", " (map trim (split ","%char (group1 m)))
  ++ " FROM" ++ suffix m.
Proof. apply sanitizeWith_literal. Qed.

Lemma X12_rewriter_literal_span_witness :
  ExecutionTool.sanitizeSQL "x select  a , b   from t WHERE y" =
  prefix (MResult "x " "select  a , b   from" (Some ("a , b" : jsstring)) " t WHERE y")
  ++ "SELECT "
  ++ join ", "
       (map trim
          (split ","%char
             (group1 (MResult "x " "select  a , b   from" (Some ("a , b" : jsstring))
                        " t WHERE y"))))
  ++ " FROM"
  ++ suffix (MResult "x " "select  a , b   from" (Some ("a , b" : jsstring)) " t WHERE y").
Proof.
  apply (X12_rewriter_literal_span "x select  a , b   from t WHERE y"
           (MResult "x " "select  a , b   from" (Some ("a , b" : jsstring)) " t WHERE y"));
    reflexivity.
Defined.

(** X13. The column filter of the rewriter drops a column whose text, in
    any mix of cases, is a forbidden name, bare or with a quote character at
    either end, alone or behind a qualifier made of word characters and
    dots. *)
Theorem X13_filter_drops_forbidden_names (col name q q' qualifier : jsstring) :
  In name Guard.FORBIDDEN_COLUMNS ->
  optionalQuote q = true -> optionalQuote q' = true ->
  forallb wordOrDot qualifier = true ->
  toLowerCase col = qualifierDot qualifier ++ q ++ name ++ q' ->
  Guard.keepColumn col = false.
Proof. apply keepColumn_forbidden. Qed.

Lemma X13_filter_drops_forbidden_names_witness :
  Guard.keepColumn ("Public.Articles." ++ ascii_of_nat 34 :: "Raw_Content" ++ [ascii_of_nat 34])
  = false.
Proof.
  apply (X13_filter_drops_forbidden_names
           ("Public.Articles." ++ ascii_of_nat 34 :: "Raw_Content" ++ [ascii_of_nat 34])
           "raw_content" [ascii_of_nat 34] [ascii_of_nat 34] "public.articles").
  - simpl. tauto.
  - reflexivity.
  - reflexivity.
  - reflexivity.
  - reflexivity.
Defined.

(** ** The generation tool *)

(** X14. The model name handed to the provider never holds a slash,
    whatever the environment variable holds. *)
Theorem X14_model_name_has_no_slash (MODEL : option jsstring) :
  forallb noSlash (GenerationRun.modelName MODEL) = true.
Proof. apply modelName_no_slash. Qed.

(** X15. A provider prefix is dropped from the model name: of
    [provider/name] the name is taken; of [provider/name/rest] the name is
    taken too, and the rest is dropped. *)
Theorem X15_model_name_drops_provider (provider name rest : jsstring) :
  forallb noSlash provider = true -> forallb noSlash name = true ->
  GenerationRun.modelName (Some (provider ++ "/"%char :: name)) = name
  /\ GenerationRun.modelName (Some (provider ++ "/"%char :: name ++ "/"%char :: rest))
     = name.
Proof.
  intros Hp Hn. split.
  - apply modelName_prefixed; assumption.
  - apply modelName_prefixed_twice; assumption.
Qed.

Lemma X15_model_name_drops_provider_witness :
  GenerationRun.modelName (Some ("openai/gpt-4o" : jsstring)) = ("gpt-4o" : jsstring)
  /\ GenerationRun.modelName (Some ("openai/gpt-4o/2024-08-06" : jsstring))
     = ("gpt-4o" : jsstring).
Proof.
  apply (X15_model_name_drops_provider "openai" "gpt-4o" "2024-08-06"); reflexivity.
Defined.

(** X16. The generation tool hands back what the language model answered,
    untouched: the SQL, the explanation and the assumptions are those of the
    model, whatever columns the SQL selects.  A thrown value, an [Error] or
    not, becomes an [Error] whose message is the original one behind the
    prefix [Failed to generate SQL query: ]. *)
Theorem X16_generation_returns_model_answer (number : Type) (MODEL : option jsstring)
    (generateObject : jsstring -> thrown + GenerationRun.generated number) :
  GenerationRun.execute MODEL generateObject =
  match generateObject (GenerationRun.modelName MODEL) with
  | inr object => inr object
  | inl error => inl (JsError ("Failed to generate SQL query: " ++ messageOf error))
  end.
Proof.
  unfold GenerationRun.execute.
  destruct (generateObject (GenerationRun.modelName MODEL)) as [error|object];
    [reflexivity|].
  rewrite generation_detector_silent. reflexivity.
Qed.

(** X17. A value of the environment variable without slash is the model
    name as it stands. *)
Theorem X17_model_name_without_provider (m : jsstring) :
  m <> [] -> forallb noSlash m = true ->
  GenerationRun.modelName (Some m) = m.
Proof. apply modelName_plain. Qed.

Lemma X17_model_name_without_provider_witness :
  GenerationRun.modelName (Some ("gpt-4.1-mini" : jsstring)) = ("gpt-4.1-mini" : jsstring).
Proof.
  apply (X17_model_name_without_provider "gpt-4.1-mini"); [discriminate|reflexivity].
Defined.

(** X18. The rewriter of either tool file changes at most the first match
    of its pattern: with no match the query is returned unchanged; with a
    match, the text before the match and the text after it are those of the
    input, and the match is replaced by the template [SELECT <columns> FROM]
    after substitution.  The first match of the pattern need not be the
    first SELECT...FROM of the query. *)
Theorem X18_frame_around_first_match (q : jsstring) :
  match exec selectRe q with
  | None => GenerationTool.sanitizeSQL q = q /\ ExecutionTool.sanitizeSQL q = q
  | Some m =>
      q = prefix m ++ matched m ++ suffix m
      /\ GenerationTool.sanitizeSQL q =
         prefix m
         ++ expand ("SELECT "
                    ++ join ", " (Guard.keptColumns GenerationTool.ALLOWED_COLUMNS (group1 m))
                    ++ " FROM") m
         ++ suffix m
      /\ ExecutionTool.sanitizeSQL q =
         prefix m
         ++ expand ("SELECT "
                    ++ join ", " (Guard.keptColumns ExecutionTool.ALLOWED_COLUMNS (group1 m))
                    ++ " FROM") m
         ++ suffix m
  end.
Proof.
  destruct (exec selectRe q) as [m|] eqn:He.
  - split; [apply exec_parts with (r := selectRe); assumption|].
    split; apply sanitizeWith_match; assumption.
  - split; apply sanitizeWith_no_match; assumption.
Qed.
